(** * commoncode.command: running bundled commands and loading native libraries

    A shallow embedding of [src/commoncode/command.py] and the properties of
    its five operations: [update_path_var], [pushd], [get_env], [execute2]
    (with [close]) and [load_shared_library].

    Python values that may be [None] are options; a [dict] is a [gmap];
    the operating system (working directory, file system, process
    environment) is an explicit [world] threaded through every call, with a
    trace of the calls that create, spawn, read or load something. *)

From Stdlib Require Import Ascii ZArith Lia.
From Stdlib Require Strings.Byte.
From stdpp Require Import base option list strings gmap fin_maps.

Local Open Scope Z_scope.

(** ** Python values *)

(** A value that is either [None] or a [str]. *)
Abbreviation pystr := (option string).

(** Truth value of a [str]: the empty string is false. *)
Definition str_truthy (s : string) : bool :=
  match s with
  | EmptyString => false
  | String _ _ => true
  end.

(** Truth value of a [None]-or-[str] value. *)
Definition truthy (v : pystr) : bool :=
  match v with
  | None => false
  | Some s => str_truthy s
  end.

(** [v or d] for a [None]-or-[str] value [v] and a [str] default [d]. *)
Definition or_str (v : pystr) (d : string) : string :=
  match v with
  | Some (String _ _ as s) => s
  | _ => d
  end.

(** ** Strings *)

(** [s.split(sep)] for a one-character separator, reading [s] from the left
    with the segment under construction in [cur].  The result is never the
    empty list: [''.split(sep) == ['']]. *)
Fixpoint split_from (sep : ascii) (cur s : string) : list string :=
  match s with
  | EmptyString => [cur]
  | String c rest =>
      if Ascii.eqb c sep
      then cur :: split_from sep EmptyString rest
      else split_from sep (cur +:+ String c EmptyString) rest
  end.

Definition split (sep : ascii) (s : string) : list string :=
  split_from sep EmptyString s.

(** [sep.join(l)]. *)
Definition join (sep : ascii) (l : list string) : string :=
  String.concat (String sep EmptyString) l.

(** [os.fsdecode] on a [str] returns it as it is. *)
Definition fsdecode (s : string) : string := s.

(** ** The platform *)

(** What [os] and [commoncode.system] say about the host: the
    [on_posix] and [on_windows] flags, [os.pathsep], and the root directory
    of the library, [curr_dir]. *)
Class System := {
  on_posix : bool;
  on_windows : bool;
  pathsep : ascii;
  curr_dir : string
}.

Definition PATH_ENV_VAR : string := "PATH".
Definition LD_LIBRARY_PATH : string := "LD_LIBRARY_PATH".
Definition DYLD_LIBRARY_PATH : string := "DYLD_LIBRARY_PATH".

(** ** update_path_var *)

Definition update_path_var `{System}
    (existing_path_var new_path : pystr) : pystr :=
  match new_path with
  | None | Some EmptyString => existing_path_var
  | Some new_path =>
      let existing_path_var := or_str existing_path_var "" in
      let existing_path_var := fsdecode existing_path_var in
      let new_path := fsdecode new_path in
      let path_elements := split pathsep existing_path_var in
      match path_elements with
      | [] => Some new_path
      | _ :: _ =>
          if bool_decide (new_path ∉ path_elements)
          then Some (join pathsep (new_path :: path_elements))
          else Some existing_path_var
      end
  end.

(** ** The operating system *)

Abbreviation bytes := (list Byte.byte).

(** Exceptions, with the arguments the code reads or extends.
    [FileNotFoundError] is a subclass of [OSError]. *)
Inductive exn : Type :=
| AssertionError
| ImportError (msg : string)
| OSError (args : list string)
| FileNotFoundError (args : list string).

Definition is_OSError (e : exn) : bool :=
  match e with
  | OSError _ | FileNotFoundError _ => true
  | _ => false
  end.

(** The keyword arguments of [subprocess.Popen] that vary; [bufsize] and
    [universal_newlines] are constants of the call.  [pa_stdout] and
    [pa_stderr] name the files behind the two open file objects. *)
Record popen_args := {
  pa_cmd : list string;
  pa_cwd : string;
  pa_env : option (gmap string pystr);
  pa_stdout : string;
  pa_stderr : string;
  pa_shell : bool
}.

(** A spawned process as [execute2] sees it: its pid, the exit code that
    [communicate] finds, what it writes to its two output streams, and its
    three pipe attributes, each [None] or an open pipe ([None] when the
    stream goes to a file or is inherited). *)
Record process := {
  pid : nat;
  returncode : Z;
  out_bytes : bytes;
  err_bytes : bytes;
  proc_stdin : option unit;
  proc_stdout : option unit;
  proc_stderr : option unit
}.

(** A library object returned by [ctypes.CDLL], with its [_name]. *)
Record library := { lib_name : pystr }.

(** The calls that create, spawn, signal, read or load something, in the
    order they are made.  Reading and changing the working directory, and
    asking whether a path exists, are not recorded. *)
Inductive event : Type :=
| EvLog
| EvTempDir (d : string)
| EvOpen (p : string)
| EvPopen (a : popen_args)
| EvCommunicate (n : nat)
| EvClosePipe
| EvKill (n : nat)
| EvWait (n : nat)
| EvRead (p : string)
| EvCDLL (p : string).

Record world := {
  w_cwd : string;
  w_dirs : gset string;
  w_files : gmap string bytes;
  w_environ : gmap string string;
  w_trace : list event
}.

Definition set_cwd (d : string) (w : world) : world :=
  {| w_cwd := d; w_dirs := w_dirs w; w_files := w_files w;
     w_environ := w_environ w; w_trace := w_trace w |}.

Definition add_dir (d : string) (w : world) : world :=
  {| w_cwd := w_cwd w; w_dirs := {[d]} ∪ w_dirs w; w_files := w_files w;
     w_environ := w_environ w; w_trace := w_trace w |}.

Definition set_file (p : string) (b : bytes) (w : world) : world :=
  {| w_cwd := w_cwd w; w_dirs := w_dirs w; w_files := <[p:=b]> (w_files w);
     w_environ := w_environ w; w_trace := w_trace w |}.

Definition emit (e : event) (w : world) : world :=
  {| w_cwd := w_cwd w; w_dirs := w_dirs w; w_files := w_files w;
     w_environ := w_environ w; w_trace := w_trace w ++ [e] |}.

(** ** Control flow *)

(** A function call either returns or raises. *)
Inductive result (A : Type) : Type :=
| Ok (a : A)
| Err (e : exn).
Arguments Ok {A} a.
Arguments Err {A} e.

Definition F (A : Type) : Type := world → result A * world.

(** A statement completes normally, leaves the enclosing function through
    [return], or raises. *)
Inductive outcome (R A : Type) : Type :=
| Normal (a : A)
| Return (r : R)
| Raise (e : exn).
Arguments Normal {R A} a.
Arguments Return {R A} r.
Arguments Raise {R A} e.

(** The state a statement runs in: the local variables [L] of the function
    that are assigned inside a [try] or [with] block, and the world. *)
Record st (L : Type) := St { locals : L; os : world }.
Arguments St {L} locals os.
Arguments locals {L} s.
Arguments os {L} s.

Definition M (L R A : Type) : Type := st L → outcome R A * st L.

Definition ret {L R A} (a : A) : M L R A := λ s, (Normal a, s).
Definition return_ {L R A} (r : R) : M L R A := λ s, (Return r, s).
Definition raise {L R A} (e : exn) : M L R A := λ s, (Raise e, s).

Definition bind {L R A B} (m : M L R A) (k : A → M L R B) : M L R B :=
  λ s, match m s with
       | (Normal a, s') => k a s'
       | (Return r, s') => (Return r, s')
       | (Raise e, s') => (Raise e, s')
       end.

#[global] Instance M_ret {L R} : MRet (M L R) := λ A, ret.
#[global] Instance M_bind {L R} : MBind (M L R) := λ A B k m, bind m k.

Definition get_locals {L R} : M L R L := λ s, (Normal (locals s), s).
Definition set_locals {L R} (l : L) : M L R unit :=
  λ s, (Normal tt, St l (os s)).

(** Calling a function from a statement. *)
Definition call {L R A} (f : F A) : M L R A :=
  λ s, match f (os s) with
       | (Ok a, w) => (Normal a, St (locals s) w)
       | (Err e, w) => (Raise e, St (locals s) w)
       end.

(** [try: body finally: fin].  The [finally] block always runs; the way the
    body ended stands unless the [finally] block itself returns or raises. *)
Definition try_finally {L R A} (body : M L R A) (fin : M L R unit) : M L R A :=
  λ s, match body s with
       | (o, s1) =>
           match fin s1 with
           | (Normal _, s2) => (o, s2)
           | (Return r, s2) => (Return r, s2)
           | (Raise e, s2) => (Raise e, s2)
           end
       end.

(** [try: body except C as e: handler e], where [catches] recognises [C]. *)
Definition try_except {L R A} (body : M L R A) (catches : exn → bool)
    (handler : exn → M L R A) : M L R A :=
  λ s, match body s with
       | (Raise e, s1) => if catches e then handler e s1 else (Raise e, s1)
       | r => r
       end.

(** A function definition: its body run with the initial locals [l]. A body
    that ends normally with [r] has [return r] as its last statement. *)
Definition def {L R} (l : L) (body : M L R R) : F R :=
  λ w, match body (St l w) with
       | (Normal r, s) => (Ok r, os s)
       | (Return r, s) => (Ok r, os s)
       | (Raise e, s) => (Err e, os s)
       end.

(** ** The os module *)

Definition is_abs (p : string) : bool :=
  match p with
  | String c _ => Ascii.eqb c "/"
  | EmptyString => false
  end.

(** The absolute name of [p] seen from the directory [cwd] ([.] and [..]
    are not interpreted). *)
Definition resolve (cwd p : string) : string :=
  if is_abs p then p else cwd +:+ "/" +:+ p.

(** [os.getcwd()]: the absolute path of the working directory, an error when
    that directory is gone. *)
Definition getcwd : F string :=
  λ w, if bool_decide (w_cwd w ∈ w_dirs w) && is_abs (w_cwd w)
       then (Ok (w_cwd w), w)
       else (Err (FileNotFoundError ["getcwd"]), w).

(** [os.chdir(p)]. *)
Definition chdir (p : string) : F unit :=
  λ w, let d := resolve (w_cwd w) p in
       if str_truthy p && bool_decide (d ∈ w_dirs w)
       then (Ok tt, set_cwd d w)
       else (Err (FileNotFoundError ["chdir"; p]), w).

(** [os.path.exists(p)]. *)
Definition path_exists (p : string) (w : world) : bool :=
  let d := resolve (w_cwd w) p in
  str_truthy p &&
  (bool_decide (d ∈ w_dirs w) || bool_decide (is_Some (w_files w !! d))).

(** [s.endswith(c)] for a character [c]. *)
Fixpoint ends_with (c : ascii) (s : string) : bool :=
  match s with
  | EmptyString => false
  | String a EmptyString => Ascii.eqb a c
  | String _ rest => ends_with c rest
  end.

(** [os.path.join(a, b)], in the POSIX flavour. *)
Definition path_join (a b : string) : string :=
  if is_abs b then b
  else if negb (str_truthy a) || ends_with "/" a then a +:+ b
  else a +:+ "/" +:+ b.

(** ** pushd *)

(** [with pushd(path) as d: body d].  The generator behind the context
    manager records the working directory, enters [path] (or stays when
    [path] is empty), hands the new working directory to the block at its
    [yield], and restores the recorded directory in its [finally]. *)
Definition pushd {L R A} (path : pystr) (body : string → M L R A) : M L R A :=
  original_cwd ← call getcwd;
  let path := or_str path original_cwd in
  try_finally
    (call (chdir path);;
     d ← call getcwd;
     body d)
    (call (chdir original_cwd)).

(** ** Collaborators *)

(** What the code obtains from outside this module: the name that
    [commoncode.fileutils.get_temp_dir] picks, [commoncode.text.toascii],
    what the operating system answers to [subprocess.Popen] and to
    [ctypes.CDLL], and the two formatters of the diagnostics. *)
Class Externals := {
  temp_dir_name : string → world → string;
  toascii : bytes → string;
  popen_model : popen_args → world → result process;
  cdll_model : string → world → result library;
  pformat : gmap string string → string;
  format_exc : exn → string
}.

(** Modelled from the spec: [commoncode.fileutils.get_temp_dir], the
    temporary-directory allocator, which returns a fresh, writable directory
    path on each call.  The directory exists afterwards. *)
Definition get_temp_dir `{Externals} (prefix : string) : F string :=
  λ w, let d := temp_dir_name prefix w in
       (Ok d, emit (EvTempDir d) (add_dir d w)).

(** Modelled from the spec: [commoncode.text.as_unicode], which normalises
    keys and values to a canonical text representation.  A [str] is already
    in that representation, and [None] stays [None]. *)
Definition as_unicode_text (s : string) : string := s.
Definition as_unicode (v : pystr) : pystr := as_unicode_text <$> v.

(** ** Formatting and bytes *)

(** [str(v)], as the [%s] and [{}] formats print it. *)
Definition py_str (v : pystr) : string :=
  match v with
  | None => "None"
  | Some s => s
  end.

(** [repr(v)], as the [%r] format prints it (without escapes). *)
Definition py_repr (v : pystr) : string :=
  match v with
  | None => "None"
  | Some s => "'" +:+ s +:+ "'"
  end.

Definition dquote : string := String "034"%char EmptyString.
Definition newline : string := String "010"%char EmptyString.

(** The ASCII whitespace that [bytes.strip()] removes. *)
Definition is_space (b : Byte.byte) : bool :=
  match b with
  | Byte.x20 | Byte.x09 | Byte.x0a | Byte.x0d | Byte.x0b | Byte.x0c => true
  | _ => false
  end.

Fixpoint lstrip (b : bytes) : bytes :=
  match b with
  | [] => []
  | c :: rest => if is_space c then lstrip rest else b
  end.

Definition rstrip (b : bytes) : bytes := reverse (lstrip (reverse b)).

(** [b.strip()]: whitespace is removed at both ends. *)
Definition strip (b : bytes) : bytes := rstrip (lstrip b).

(** ** Files and processes *)

(** [os.environ.get(k)]. *)
Definition environ_get (k : string) : F pystr :=
  λ w, (Ok (w_environ w !! k), w).

Definition environ_snapshot : F (gmap string string) :=
  λ w, (Ok (w_environ w), w).

Definition os_path_exists (p : string) : F bool :=
  λ w, (Ok (path_exists p w), w).

(** [io.open(p, mode='w', encoding='utf-8')]: the file is created or
    truncated; the result stands for the open file object.  The directory
    of the file is the one [get_temp_dir] has just made. *)
Definition open_w (p : string) : F string :=
  λ w, let f := resolve (w_cwd w) p in
       (Ok f, emit (EvOpen f) (set_file f [] w)).

(** [open(p, 'rb').read()]. *)
Definition read_rb (p : string) : F bytes :=
  λ w, let f := resolve (w_cwd w) p in
       match w_files w !! f with
       | Some b => (Ok b, emit (EvRead f) w)
       | None => (Err (FileNotFoundError ["open"; p]), w)
       end.

Definition append_file (f : string) (b : bytes) (w : world) : world :=
  set_file f (default [] (w_files w !! f) ++ b) w.

(** [subprocess.Popen(full_cmd, **popen_args)]. *)
Definition Popen `{Externals} (a : popen_args) : F process :=
  λ w, (popen_model a w, emit (EvPopen a) w).

(** [proc.communicate()]: waits for the process, whose output goes to the
    two files it was given. *)
Definition communicate (a : popen_args) (proc : process) : F unit :=
  λ w, (Ok tt,
        emit (EvCommunicate (pid proc))
          (append_file (pa_stderr a) (err_bytes proc)
             (append_file (pa_stdout a) (out_bytes proc) w))).

(** [os.kill(proc.pid, signal.SIGKILL)] inside [try: ... except: pass]. *)
Definition kill_quietly (proc : process) : F unit :=
  λ w, (Ok tt, emit (EvKill (pid proc)) w).

(** [proc.wait()]. *)
Definition wait (proc : process) : F unit :=
  λ w, (Ok tt, emit (EvWait (pid proc)) w).

(** The [print] or [logger.debug] of the command line. *)
Definition printer : F unit := λ w, (Ok tt, emit EvLog w).

(** ** get_env *)

Definition dict_truthy {V} (d : option (gmap string V)) : bool :=
  match d with
  | None => false
  | Some m => negb (bool_decide (m = ∅))
  end.

(** [d or None] for a [dict]. *)
Definition dict_or_None {V} (m : gmap string V) : option (gmap string V) :=
  if bool_decide (m = ∅) then None else Some m.

Definition get_env `{System}
    (base_vars : option (gmap string pystr)) (lib_dir : pystr)
    : F (gmap string pystr) :=
  def tt (
    let env_vars : gmap string pystr := ∅ in
    let env_vars :=
      if dict_truthy base_vars then default ∅ base_vars ∪ env_vars
      else env_vars in
    env_vars ←
      (if truthy lib_dir && on_posix then
         let new_path := py_str lib_dir in
         ld_lib_path ← call (environ_get LD_LIBRARY_PATH);
         let env_vars :=
           <[LD_LIBRARY_PATH := update_path_var ld_lib_path (Some new_path)]>
             env_vars in
         dyld_lib_path ← call (environ_get DYLD_LIBRARY_PATH);
         let env_vars :=
           <[DYLD_LIBRARY_PATH := update_path_var dyld_lib_path (Some new_path)]>
             env_vars in
         mret env_vars
       else mret env_vars);
    mret (map_fold (λ k v acc, <[as_unicode_text k := as_unicode v]> acc)
            ∅ env_vars)).

(** ** close *)

(** Truth value of a variable holding [None] or a [Popen] object. *)
Definition proc_truthy (proc : option process) : bool :=
  match proc with
  | None => false
  | Some _ => true
  end.

Definition close_pipe (p : option unit) : F unit :=
  match p with
  | None => λ w, (Ok tt, w)
  | Some _ => λ w, (Ok tt, emit EvClosePipe w)
  end.

Definition close (proc : option process) : F unit :=
  match proc with
  | None => λ w, (Ok tt, w)
  | Some proc =>
      def tt (
        call (close_pipe (proc_stdin proc));;
        call (close_pipe (proc_stdout proc));;
        call (close_pipe (proc_stderr proc));;
        call (kill_quietly proc);;
        call (wait proc))
  end.

(** ** execute2 *)

Definition execute2 `{System} `{Externals}
    (cmd_loc : pystr) (args : option (list string)) (lib_dir cwd : pystr)
    (env : option (gmap string pystr)) (to_files log : bool)
    : F (Z * string * string) :=
  def (None, 100) (
    match cmd_loc with
    | None | Some EmptyString => raise AssertionError
    | Some cmd_loc =>
        let full_cmd := cmd_loc :: default [] args in
        env ← call (get_env env lib_dir);
        let env := dict_or_None env in
        let cwd := or_str cwd curr_dir in
        tmp_dir ← call (get_temp_dir "cmd-");
        let sop := path_join tmp_dir "stdout" in
        let sep := path_join tmp_dir "stderr" in
        let shell := if on_windows then true else false in
        (if log then call printer else mret tt);;
        try_finally
          (stdout ← call (open_w sop);
           stderr ← call (open_w sep);
           pushd lib_dir (λ _,
             let popen_args :=
               {| pa_cmd := full_cmd; pa_cwd := cwd; pa_env := env;
                  pa_stdout := stdout; pa_stderr := stderr;
                  pa_shell := shell |} in
             proc ← call (Popen popen_args);
             '(_, rc) ← get_locals;
             set_locals (Some proc, rc);;
             call (communicate popen_args proc);;
             set_locals (Some proc,
                         if proc_truthy (Some proc) then returncode proc
                         else 0)))
          ('(proc, _) ← get_locals; call (close proc));;
        '(_, rc) ← get_locals;
        if negb to_files then
          so ← call (read_rb sop);
          let sop := toascii (strip so) in
          se ← call (read_rb sep);
          let sep := toascii (strip se) in
          return_ (rc, sop, sep)
        else return_ (rc, sop, sep)
    end).

(** ** load_shared_library *)

(** [ctypes.CDLL(dll_path)]. *)
Definition CDLL `{Externals} (dll_path : string) : F library :=
  λ w, (cdll_model dll_path w, emit (EvCDLL dll_path) w).

(** [e.args = tuple(e.args + msgs)]. *)
Definition add_args (e : exn) (msgs : list string) : exn :=
  match e with
  | OSError args => OSError (args ++ msgs)
  | FileNotFoundError args => FileNotFoundError (args ++ msgs)
  | e => e
  end.

Definition dll_path_message (dll_path lib_dir : pystr) : string :=
  "Shared library " +:+ dquote +:+ "dll_path" +:+ dquote +:+
  " does not exists: dll_path=" +:+ dquote +:+ py_str dll_path +:+ dquote +:+
  " and lib_dir=" +:+ py_str lib_dir +:+ ")".

Definition lib_dir_message (dll_path lib_dir : pystr) : string :=
  "Shared library " +:+ dquote +:+ "lib_dir" +:+ dquote +:+
  " does not exists: dll_path=" +:+ dquote +:+ py_str dll_path +:+ dquote +:+
  " and lib_dir=" +:+ py_str lib_dir +:+ ")".

Definition load_shared_library `{Externals} (dll_path lib_dir : pystr)
    : F library :=
  def tt (
    missing ←
      (if negb (truthy dll_path) then mret true
       else found ← call (os_path_exists (py_str dll_path));
            mret (negb found));
    if missing : bool
    then raise (ImportError (dll_path_message dll_path lib_dir))
    else
    missing ←
      (if truthy lib_dir
       then found ← call (os_path_exists (py_str lib_dir));
            mret (negb found)
       else mret false);
    if missing : bool
    then raise (ImportError (lib_dir_message dll_path lib_dir))
    else
    let dll_path := fsdecode (py_str dll_path) in
    lib ←
      try_except
        (pushd lib_dir (λ _, call (CDLL dll_path)))
        is_OSError
        (λ e,
           environ ← call environ_snapshot;
           let msgs :=
             [ "ctypes.CDLL(dll_path): " +:+ dll_path;
               "lib_dir: " +:+ py_str lib_dir;
               "os.environ:" +:+ newline +:+ pformat environ;
               format_exc e ] in
           raise (add_args e msgs));
    if truthy (lib_name lib)
    then return_ lib
    else
      raise (ImportError
               ("Failed to load shared library with ctypes: " +:+
                py_repr (Some dll_path) +:+ " and lib_dir: " +:+
                py_repr lib_dir))).

(** ** Observing a run *)

(** The calls a function makes when started in [w]. *)
Definition events_of {A} (f : F A) (w : world) : list event :=
  drop (length (w_trace w)) (w_trace (f w).2).

(** [calls_only P w w']: from [w] to [w'] the trace grew by calls that all
    satisfy [P]. *)
Definition calls_only (P : event → Prop) (w w' : world) : Prop :=
  ∃ evs, w_trace w' = w_trace w ++ evs ∧ Forall P evs.

Definition F_calls (P : event → Prop) {A} (f : F A) : Prop :=
  ∀ w, calls_only P w (f w).2.

Definition M_calls (P : event → Prop) {L R A} (m : M L R A) : Prop :=
  ∀ s, calls_only P (os s) (os (m s).2).

(** A call that hands no environment to a child process. *)
Definition without_env (e : event) : Prop :=
  match e with
  | EvPopen a => pa_env a = None
  | _ => True
  end.

(** The environment of the child: [subprocess.Popen] gives it the [env]
    mapping, and the environment of the parent when [env] is [None]. *)
Definition child_environ (a : popen_args) (w : world) : gmap string pystr :=
  match pa_env a with
  | None => Some <$> w_environ w
  | Some env => env
  end.

(** The dictionary [get_env] builds, before the normalisation of its keys
    and values. *)
Definition get_env_map `{System} (base_vars : option (gmap string pystr))
    (lib_dir : pystr) (w : world) : gmap string pystr :=
  let env_vars :=
    if dict_truthy base_vars then default ∅ base_vars ∪ ∅ else ∅ in
  if truthy lib_dir && on_posix then
    <[DYLD_LIBRARY_PATH :=
        update_path_var (w_environ w !! DYLD_LIBRARY_PATH)
          (Some (py_str lib_dir))]>
      (<[LD_LIBRARY_PATH :=
           update_path_var (w_environ w !! LD_LIBRARY_PATH)
             (Some (py_str lib_dir))]> env_vars)
  else env_vars.

(** The value of [env] after [env = get_env(env, lib_dir) or None]. *)
Definition built_env `{System} (base : option (gmap string pystr))
    (lib_dir : pystr) (w : world) : option (gmap string pystr) :=
  match get_env base lib_dir w with
  | (Ok m, _) => dict_or_None m
  | (Err _, _) => None
  end.

Definition log_world (log : bool) (w : world) : world :=
  if log then emit EvLog w else w.

Definition open_world (f : string) (w : world) : world :=
  emit (EvOpen f) (set_file f [] w).

(** The arguments [execute2] gives to [subprocess.Popen] when it is started
    in [w] and reaches that call, and the world that call is made in. *)
Definition spawn_args `{System} `{Externals} (cmd : string)
    (args : option (list string)) (lib_dir cwd : pystr)
    (env : option (gmap string pystr)) (w : world) : popen_args :=
  let tmp_dir := temp_dir_name "cmd-" w in
  {| pa_cmd := cmd :: default [] args;
     pa_cwd := or_str cwd curr_dir;
     pa_env := built_env env lib_dir w;
     pa_stdout := resolve (w_cwd w) (path_join tmp_dir "stdout");
     pa_stderr := resolve (w_cwd w) (path_join tmp_dir "stderr");
     pa_shell := if on_windows then true else false |}.

Definition spawn_world `{Externals} (lib_dir : pystr) (log : bool)
    (w : world) : world :=
  let tmp_dir := temp_dir_name "cmd-" w in
  set_cwd (resolve (w_cwd w) (or_str lib_dir (w_cwd w)))
    (open_world (resolve (w_cwd w) (path_join tmp_dir "stderr"))
       (open_world (resolve (w_cwd w) (path_join tmp_dir "stdout"))
          (log_world log (emit (EvTempDir tmp_dir) (add_dir tmp_dir w))))).

(** The calls up to and including the spawn. *)
Definition spawn_events `{System} `{Externals} (cmd : string)
    (args : option (list string)) (lib_dir cwd : pystr)
    (env : option (gmap string pystr)) (log : bool) (w : world) : list event :=
  let a := spawn_args cmd args lib_dir cwd env w in
  EvTempDir (temp_dir_name "cmd-" w)
  :: (if log then [EvLog] else [])
  ++ [EvOpen (pa_stdout a); EvOpen (pa_stderr a); EvPopen a].

(** The calls of [close(proc)] for a process. *)
Definition pipe_events (p : option unit) : list event :=
  match p with
  | None => []
  | Some _ => [EvClosePipe]
  end.

Definition close_events (proc : process) : list event :=
  pipe_events (proc_stdin proc) ++ pipe_events (proc_stdout proc)
  ++ pipe_events (proc_stderr proc)
  ++ [EvKill (pid proc); EvWait (pid proc)].

(** Text made of 7-bit characters only. *)
Definition ascii_only (s : string) : Prop :=
  Forall (λ c, (nat_of_ascii c < 128)%nat) (String.list_ascii_of_string s).

(** ** A concrete host *)

Definition posix_system : System :=
  {| on_posix := true; on_windows := false; pathsep := ":"%char;
     curr_dir := "/opt/commoncode/src" |}.

Definition ascii_or_qmark (b : Byte.byte) : ascii :=
  let c := Ascii.ascii_of_byte b in
  if (nat_of_ascii c <? 128)%nat then c else "?"%char.

Definition demo_toascii (b : bytes) : string :=
  String.string_of_list_ascii (map ascii_or_qmark b).

(** A tool that prints [" X\n"] and ["Y\n"] and exits with code 7. *)
Definition demo_process : process :=
  {| pid := 42; returncode := 7;
     out_bytes := [Byte.x20; Byte.x58; Byte.x0a];
     err_bytes := [Byte.x59; Byte.x0a];
     proc_stdin := None; proc_stdout := None; proc_stderr := None |}.

Definition demo_externals : Externals :=
  {| temp_dir_name := λ prefix _, "/tmp/" +:+ prefix +:+ "0";
     toascii := demo_toascii;
     popen_model := λ a _,
       match pa_cmd a with
       | "/bin/tool" :: _ => Ok demo_process
       | _ => Err (FileNotFoundError ["No such file or directory"])
       end;
     cdll_model := λ p _,
       if String.eqb p "/opt/lib/libdemo.so" then Ok {| lib_name := Some p |}
       else Err (OSError ["cannot open shared object file"]);
     pformat := λ _, "{}";
     format_exc := λ _, "Traceback" |}.

Definition demo_world : world :=
  {| w_cwd := "/home/user";
     w_dirs := {[ "/home/user"; "/opt/lib"; "/tmp" ]};
     w_files := {[ "/opt/lib/libdemo.so" := [] ]};
     w_environ := {[ "LD_LIBRARY_PATH" := "/usr/lib" ]};
     w_trace := [] |}.

(** A block that moves elsewhere and then fails. *)
Definition demo_block : string → M unit unit unit :=
  λ _, call (chdir "/tmp");; raise (OSError ["boom"]).

(** The arguments of the spawn of ["/bin/tool"] with no library directory
    and no base environment. *)
Definition demo_popen_args : popen_args :=
  @spawn_args posix_system demo_externals "/bin/tool" None None None None
    demo_world.

(** ** Further observations *)

(** Whether the character [c] occurs in [s]. *)
Fixpoint has_char (c : ascii) (s : string) : bool :=
  match s with
  | EmptyString => false
  | String a rest => Ascii.eqb a c || has_char c rest
  end.

(** [steps Rw m]: whatever [m] does, the world it ends in is related by
    [Rw] to the world it started in. *)
Definition F_steps (Rw : relation world) {A} (f : F A) : Prop :=
  ∀ w, Rw w (f w).2.

Definition M_steps (Rw : relation world) {L R A} (m : M L R A) : Prop :=
  ∀ s, Rw (os s) (os (m s).2).

(** No directory disappears. *)
Definition dirs_grow (w w' : world) : Prop := w_dirs w ⊆ w_dirs w'.

(** No directory disappears and the working directory is the same. *)
Definition cwd_kept (w w' : world) : Prop :=
  w_cwd w' = w_cwd w ∧ w_dirs w ⊆ w_dirs w'.

(** The four diagnostics [load_shared_library] adds to an [OSError]. *)
Definition load_diagnostics `{Externals} (dll_path : string) (lib_dir : pystr)
    (e : exn) (w : world) : list string :=
  [ "ctypes.CDLL(dll_path): " +:+ dll_path;
    "lib_dir: " +:+ py_str lib_dir;
    "os.environ:" +:+ newline +:+ pformat (w_environ w);
    format_exc e ].

(** What [execute2] may call: anything but a spawn, and a spawn only with
    the command line, working directory, environment and shell flag that
    the invocation determines. *)
Definition spawns_as `{System} (cmd : string) (args : option (list string))
    (lib_dir cwd : pystr) (env : option (gmap string pystr)) (w : world)
    (e : event) : Prop :=
  match e with
  | EvPopen a =>
      pa_cmd a = cmd :: default [] args
      ∧ pa_cwd a = or_str cwd curr_dir
      ∧ pa_env a = built_env env lib_dir w
      ∧ pa_shell a = on_windows
  | _ => True
  end.

(** A block that removes the directory it was started from. *)
Definition remove_dir (d : string) (w : world) : world :=
  {| w_cwd := w_cwd w; w_dirs := w_dirs w ∖ {[d]}; w_files := w_files w;
     w_environ := w_environ w; w_trace := w_trace w |}.

Definition demo_rmdir_block : string → M unit unit unit :=
  λ _ s, (Normal tt, St (locals s) (remove_dir "/home/user" (os s))).

(** A library whose handle has no name. *)
Definition nameless_externals : Externals :=
  {| temp_dir_name := λ prefix _, "/tmp/" +:+ prefix +:+ "0";
     toascii := demo_toascii;
     popen_model := λ _ _, Err (FileNotFoundError ["No such file or directory"]);
     cdll_model := λ _ _, Ok {| lib_name := Some "" |};
     pformat := λ _, "{}";
     format_exc := λ _, "Traceback" |}.

(** The arguments of an exception of the [OSError] family. *)
Definition exn_args (e : exn) : list string :=
  match e with
  | OSError args | FileNotFoundError args => args
  | _ => []
  end.

Definition failed_load_message (dll_path : string) (lib_dir : pystr) : string :=
  "Failed to load shared library with ctypes: " +:+
  py_repr (Some dll_path) +:+ " and lib_dir: " +:+ py_repr lib_dir.

(** The arguments of the spawn of ["/bin/tool"] with the library directory
    ["/opt/lib"] and no base environment. *)
Definition demo_popen_args_lib : popen_args :=
  @spawn_args posix_system demo_externals "/bin/tool" None (Some "/opt/lib")
    None None demo_world.

(** * Properties *)

Ltac run_monad :=
  unfold def, mbind, M_bind, bind, mret, M_ret, ret, return_, raise, call,
    try_finally, try_except, get_locals, set_locals.

(** ** Strings *)

Lemma string_app_nil_r (s : string) : s +:+ "" = s.
Proof.
  induction s as [|c s IH]; [done|].
  change (String c (s +:+ "") = String c s). by rewrite IH.
Qed.

Lemma string_app_assoc (s1 s2 s3 : string) :
  s1 +:+ s2 +:+ s3 = (s1 +:+ s2) +:+ s3.
Proof.
  induction s1 as [|c s1 IH]; [done|].
  change (String c (s1 +:+ s2 +:+ s3) = String c ((s1 +:+ s2) +:+ s3)).
  by rewrite IH.
Qed.

Lemma split_from_nonempty sep cur s : split_from sep cur s ≠ [].
Proof.
  revert cur. induction s as [|c rest IH]; intros cur; simpl; [done|].
  destruct (Ascii.eqb c sep); [done | apply IH].
Qed.

Lemma join_cons sep x l :
  l ≠ [] → join sep (x :: l) = x +:+ String sep EmptyString +:+ join sep l.
Proof. destruct l; [done | reflexivity]. Qed.

Lemma join_split_from sep cur s :
  join sep (split_from sep cur s) = cur +:+ s.
Proof.
  revert cur. induction s as [|c rest IH]; intros cur; simpl.
  - unfold join. simpl. by rewrite string_app_nil_r.
  - destruct (Ascii.eqb_spec c sep) as [->|Hne].
    + rewrite join_cons by apply split_from_nonempty.
      rewrite IH. reflexivity.
    + rewrite IH. rewrite <- string_app_assoc. reflexivity.
Qed.

(** Splitting and joining again gives the string back: the segments of a
    PATH-like string, in their order, are the string itself. *)
Lemma join_split sep s : join sep (split sep s) = s.
Proof. unfold split. by rewrite join_split_from. Qed.

Lemma split_nonempty sep s : split sep s ≠ [].
Proof. apply split_from_nonempty. Qed.

Lemma or_str_Some (s : string) : or_str (Some s) "" = s.
Proof. by destruct s. Qed.

(** ** update_path_var *)

Section PathVar.
Context `{System}.

(** With no existing value, a new path comes back with a separator after
    it: [''.split(os.pathsep)] is [['']], never the empty list, so the
    branch that would return the new path alone is not taken. *)
Lemma update_path_var_absent (existing : pystr) (S : string) :
  truthy existing = false → S ≠ "" →
  update_path_var existing (Some S) = Some (S +:+ String pathsep "").
Proof.
  intros He HS. unfold update_path_var.
  destruct S as [|c S']; [done|].
  assert (or_str existing "" = "") as -> by (by destruct existing as [[|??]|]).
  unfold fsdecode, split. cbn [split_from].
  rewrite bool_decide_eq_true_2; [reflexivity|].
  by intros ?%list_elem_of_singleton.
Qed.

(** C8, as amended: for a PATH-like string [P] and a non-empty new
    segment [S] that is not one of the segments of [P], the merge is [S]
    in front of the segments of [P] in their order, that is [S], the
    separator, and [P]. *)
Theorem update_path_var_prepends (P S : string) :
  S ≠ "" → S ∉ split pathsep P →
  update_path_var (Some P) (Some S)
  = Some (join pathsep (S :: split pathsep P))
  ∧ join pathsep (S :: split pathsep P) = S +:+ String pathsep "" +:+ P.
Proof.
  intros HS Hnotin. split.
  - unfold update_path_var. destruct S as [|c S']; [done|].
    rewrite or_str_Some. unfold fsdecode.
    destruct (split pathsep P) as [|x l] eqn:E.
    + by apply split_nonempty in E.
    + by rewrite bool_decide_eq_true_2.
  - rewrite join_cons by apply split_nonempty. by rewrite join_split.
Qed.

(** C9: when the new segment [S] is already one of the segments of the
    PATH-like string [P], the merge gives [P] back unchanged. *)
Theorem update_path_var_present (P S : string) :
  S ∈ split pathsep P →
  update_path_var (Some P) (Some S) = Some P.
Proof.
  intros Hin. unfold update_path_var. destruct S as [|c S']; [done|].
  rewrite or_str_Some. unfold fsdecode.
  destruct (split pathsep P) as [|x l] eqn:E.
  - by apply split_nonempty in E.
  - rewrite bool_decide_eq_false_2; [done|]. by intros Hn.
Qed.
End PathVar.

(** C3, on the code: with the existing variable absent ([None] or empty),
    merging ["/usr/lib"] gives ["/usr/lib:"], the new path and a trailing
    separator, not the new path alone. *)
Theorem update_path_var_absent_trailing_separator :
  @update_path_var posix_system None (Some "/usr/lib") = Some "/usr/lib:"
  ∧ @update_path_var posix_system (Some "") (Some "/usr/lib") = Some "/usr/lib:"
  ∧ @update_path_var posix_system None (Some "/usr/lib") ≠ Some "/usr/lib".
Proof. split; [reflexivity | split; [reflexivity | discriminate]]. Qed.

(** C8, as stated, fails for the empty segment: it is not a segment of
    ["/a"], and the merge returns ["/a"] itself, not [":/a"]. *)
Lemma update_path_var_empty_segment :
  ("" ∉ split (@pathsep posix_system) "/a")
  ∧ @update_path_var posix_system (Some "/a") (Some "") = Some "/a"
  ∧ @update_path_var posix_system (Some "/a") (Some "")
    ≠ Some (join (@pathsep posix_system)
              ("" :: split (@pathsep posix_system) "/a")).
Proof.
  split; [|split].
  - by intros ?%list_elem_of_singleton.
  - reflexivity.
  - discriminate.
Qed.

Lemma update_path_var_prepends_witness :
  @update_path_var posix_system (Some "/a:/b") (Some "/usr/lib")
  = Some (join ":" ("/usr/lib" :: split ":" "/a:/b"))
  ∧ join ":" ("/usr/lib" :: split ":" "/a:/b")
    = "/usr/lib" +:+ String ":" "" +:+ "/a:/b".
Proof.
  apply (@update_path_var_prepends posix_system "/a:/b" "/usr/lib").
  - discriminate.
  - vm_compute. intros Hin. inversion Hin as [|? ? ? Hin']; subst.
    inversion Hin' as [|? ? ? Hin'']; subst. inversion Hin''.
Defined.

Lemma update_path_var_present_witness :
  @update_path_var posix_system (Some "/a:/b") (Some "/b") = Some "/a:/b".
Proof.
  apply (@update_path_var_present posix_system "/a:/b" "/b").
  vm_compute. apply list_elem_of_further, list_elem_of_here.
Defined.

(** ** The working directory *)

Lemma is_abs_resolve c p : is_abs c = true → is_abs (resolve c p) = true.
Proof.
  unfold resolve. destruct (is_abs p) eqn:E; [done|].
  by destruct c.
Qed.

Lemma resolve_abs c p : is_abs p = true → resolve c p = p.
Proof. unfold resolve. by intros ->. Qed.

Lemma set_cwd_same w : set_cwd (w_cwd w) w = w.
Proof. by destruct w. Qed.

Lemma getcwd_ok w :
  w_cwd w ∈ w_dirs w → is_abs (w_cwd w) = true →
  getcwd w = (Ok (w_cwd w), w).
Proof.
  intros Hin Habs. unfold getcwd. by rewrite bool_decide_eq_true_2, Habs.
Qed.

Lemma getcwd_inv w r w' :
  getcwd w = (r, w') →
  w' = w ∧
  ((r = Ok (w_cwd w) ∧ w_cwd w ∈ w_dirs w ∧ is_abs (w_cwd w) = true)
   ∨ ∃ e, r = Err e).
Proof.
  unfold getcwd. destruct (bool_decide _ && _) eqn:E; intros [= <- <-].
  - apply andb_true_iff in E as [E1 E2]. apply bool_decide_eq_true in E1.
    split; [done|]. by left.
  - split; [done|]. right. eauto.
Qed.

Lemma chdir_ok p w :
  str_truthy p = true → resolve (w_cwd w) p ∈ w_dirs w →
  chdir p w = (Ok tt, set_cwd (resolve (w_cwd w) p) w).
Proof.
  intros Hp Hin. unfold chdir. by rewrite Hp, bool_decide_eq_true_2.
Qed.

Lemma chdir_abs_existing d w :
  is_abs d = true → d ∈ w_dirs w → chdir d w = (Ok tt, set_cwd d w).
Proof.
  intros Habs Hin. rewrite <- (resolve_abs (w_cwd w) d Habs) at 2.
  apply chdir_ok; [by destruct d | by rewrite resolve_abs].
Qed.

Lemma chdir_inv p w r w' :
  chdir p w = (r, w') →
  (r = Ok tt ∧ w' = set_cwd (resolve (w_cwd w) p) w)
  ∨ ((∃ e, r = Err e) ∧ w' = w).
Proof.
  unfold chdir. destruct (str_truthy p && _); intros [= <- <-]; eauto.
Qed.

(** ** pushd *)

(** Once the directory is entered, [pushd] runs the block and then goes
    back, whatever the block did. *)
Lemma pushd_enter {L R A} (path : pystr) (body : string → M L R A)
    (s : st L) (w1 : world) (d : string) :
  getcwd (os s) = (Ok (w_cwd (os s)), os s) →
  chdir (or_str path (w_cwd (os s))) (os s) = (Ok tt, w1) →
  getcwd w1 = (Ok d, w1) →
  pushd path body s
  = let (o, s2) := body d (St (locals s) w1) in
    match chdir (w_cwd (os s)) (os s2) with
    | (Ok _, w') => (o, St (locals s2) w')
    | (Err e, w') => (Raise e, St (locals s2) w')
    end.
Proof.
  intros E0 E1 E2. unfold pushd. run_monad. rewrite E0. cbn [os locals].
  rewrite E1. cbn [os locals]. rewrite E2. cbn [os locals].
  destruct (body d _) as [o s2]. cbn [os locals].
  by destruct (chdir (w_cwd (os s)) (os s2)) as [[?|?] ?].
Qed.





(** ** get_env *)

(** Normalising a dictionary of text keys and values changes nothing. *)
Lemma normalise_dict (m : gmap string pystr) :
  map_fold (λ k v acc, <[as_unicode_text k := as_unicode v]> acc) ∅ m = m.
Proof.
  apply (map_fold_weak_ind (λ r m, r = m)); [done|].
  intros k v m' r _ ->. unfold as_unicode_text, as_unicode.
  by rewrite option_fmap_id.
Qed.

Lemma events_of_same {A} (f : F A) w : (f w).2 = w → events_of f w = [].
Proof. intros E. unfold events_of. rewrite E. apply drop_all. Qed.

Section Environment.
Context `{System}.

(** [get_env] returns its dictionary and leaves the world as it is. *)
Lemma get_env_eq base_vars lib_dir w :
  get_env base_vars lib_dir w = (Ok (get_env_map base_vars lib_dir w), w).
Proof.
  unfold get_env, get_env_map. run_monad. unfold environ_get.
  cbn [os locals fst snd].
  destruct (truthy lib_dir && on_posix); cbn [os locals];
    by rewrite normalise_dict.
Qed.

Lemma get_env_empty lib_dir w :
  truthy lib_dir = false ∨ on_posix = false →
  get_env None lib_dir w = (Ok ∅, w).
Proof.
  intros Hno. rewrite get_env_eq. unfold get_env_map, dict_truthy.
  assert (truthy lib_dir && on_posix = false) as ->; [|done].
  destruct Hno as [-> | ->]; [done | apply andb_false_r].
Qed.

(** C6: on a POSIX-like platform, with a base map that maps [K] to [V],
    [K] not being one of the two library-search-path variables, and a
    library directory [lib_dir], [get_env] returns a map that still maps
    [K] to [V] and maps each of the two variables to the merge of its
    value in the environment of the process with [lib_dir], whatever the
    base map said for them. *)
Theorem get_env_preserves (base : gmap string pystr) (K : string) (V : pystr)
    (lib_dir : string) (w : world) :
  on_posix = true →
  str_truthy lib_dir = true →
  base !! K = Some V →
  K ≠ LD_LIBRARY_PATH → K ≠ DYLD_LIBRARY_PATH →
  ∃ m, get_env (Some base) (Some lib_dir) w = (Ok m, w)
       ∧ m !! K = Some V
       ∧ m !! LD_LIBRARY_PATH
         = Some (update_path_var (w_environ w !! LD_LIBRARY_PATH)
                   (Some lib_dir))
       ∧ m !! DYLD_LIBRARY_PATH
         = Some (update_path_var (w_environ w !! DYLD_LIBRARY_PATH)
                   (Some lib_dir)).
Proof.
  intros Hposix Hdir HK Hld Hdyld.
  eexists. split; [apply get_env_eq|].
  assert (base ≠ ∅) as Hne by (intros ->; by rewrite lookup_empty in HK).
  unfold get_env_map, dict_truthy, truthy, py_str.
  rewrite Hdir, Hposix, bool_decide_eq_false_2 by done.
  cbn [andb negb default]. rewrite (right_id_L ∅ (∪)).
  split; [|split].
  - by rewrite !lookup_insert_ne.
  - rewrite lookup_insert_ne by done. by rewrite lookup_insert_eq.
  - by rewrite lookup_insert_eq.
Qed.
End Environment.

Lemma get_env_preserves_witness :
  ∃ m, @get_env posix_system
         (Some {[ "HOME" := Some "/home/user";
                  "LD_LIBRARY_PATH" := Some "/stale" ]})
         (Some "/opt/lib") demo_world = (Ok m, demo_world)
       ∧ m !! "HOME" = Some (Some "/home/user")
       ∧ m !! LD_LIBRARY_PATH
         = Some (@update_path_var posix_system
                   (w_environ demo_world !! LD_LIBRARY_PATH) (Some "/opt/lib"))
       ∧ m !! DYLD_LIBRARY_PATH
         = Some (@update_path_var posix_system
                   (w_environ demo_world !! DYLD_LIBRARY_PATH)
                   (Some "/opt/lib")).
Proof.
  apply (@get_env_preserves posix_system
           {[ "HOME" := Some "/home/user";
              "LD_LIBRARY_PATH" := Some "/stale" ]}
           "HOME" (Some "/home/user") "/opt/lib" demo_world).
  - reflexivity.
  - reflexivity.
  - vm_compute. reflexivity.
  - discriminate.
  - discriminate.
Defined.

(** ** The guards of execute2 and load_shared_library *)

Section Guards.
Context `{System} `{Externals}.

(** C7: with an executable path that is [None] or empty, [execute2] raises
    [AssertionError] at once: the world is unchanged, so no environment
    was read, no temporary directory or file was made, and nothing was
    spawned. *)
Theorem execute2_requires_cmd_loc cmd_loc args lib_dir cwd env to_files log w :
  truthy cmd_loc = false →
  execute2 cmd_loc args lib_dir cwd env to_files log w
  = (Err AssertionError, w)
  ∧ events_of (execute2 cmd_loc args lib_dir cwd env to_files log) w = [].
Proof.
  intros Hc.
  assert (execute2 cmd_loc args lib_dir cwd env to_files log w
          = (Err AssertionError, w)) as E.
  { unfold execute2. by destruct cmd_loc as [[|c s]|]. }
  split; [exact E|]. apply events_of_same. by rewrite E.
Qed.

(** C5: when the library path is [None], empty or names nothing that
    exists, or when a library directory is given and does not exist,
    [load_shared_library] raises [ImportError] with the world unchanged:
    no call was made, [ctypes.CDLL] in particular. *)
Theorem load_shared_library_validates dll_path lib_dir w :
  truthy dll_path = false
  ∨ path_exists (py_str dll_path) w = false
  ∨ (truthy lib_dir = true ∧ path_exists (py_str lib_dir) w = false) →
  (∃ msg, load_shared_library dll_path lib_dir w = (Err (ImportError msg), w))
  ∧ events_of (load_shared_library dll_path lib_dir) w = [].
Proof.
  intros Hbad.
  assert (∃ msg, load_shared_library dll_path lib_dir w
                 = (Err (ImportError msg), w)) as [msg E].
  { unfold load_shared_library. run_monad.
    unfold os_path_exists. cbn [os locals fst snd].
    destruct (truthy dll_path) eqn:Hd; cbn [negb os locals]; [|eauto].
    destruct (path_exists (py_str dll_path) w) eqn:He;
      cbn [negb os locals]; [|eauto].
    destruct Hbad as [?|[?|[Hl Hle]]]; try done.
    rewrite Hl. cbn [os locals]. rewrite Hle. cbn [negb os locals]. eauto. }
  split; [eauto|]. apply events_of_same. by rewrite E.
Qed.
End Guards.

Lemma execute2_requires_cmd_loc_witness :
  @execute2 posix_system demo_externals (Some "") (Some ["-v"]) None None None
    false false demo_world
  = (Err AssertionError, demo_world)
  ∧ events_of
      (@execute2 posix_system demo_externals (Some "") (Some ["-v"]) None None
         None false false) demo_world = [].
Proof.
  apply (@execute2_requires_cmd_loc posix_system demo_externals).
  reflexivity.
Defined.

Lemma load_shared_library_validates_witness :
  (∃ msg, @load_shared_library demo_externals (Some "/opt/lib/libdemo.so")
            (Some "/nowhere") demo_world
          = (Err (ImportError msg), demo_world))
  ∧ events_of
      (@load_shared_library demo_externals (Some "/opt/lib/libdemo.so")
         (Some "/nowhere")) demo_world = [].
Proof.
  apply (@load_shared_library_validates demo_externals).
  right. right. split; [reflexivity | vm_compute; reflexivity].
Defined.

(** ** Running statements step by step *)

Lemma bind_call_ok {L R A B} (f : F A) (k : A → M L R B) s a w' :
  f (os s) = (Ok a, w') → (call f ≫= k) s = k a (St (locals s) w').
Proof. intros E. unfold mbind, M_bind, bind, call. by rewrite E. Qed.

Lemma bind_call_err {L R A B} (f : F A) (k : A → M L R B) s e w' :
  f (os s) = (Err e, w') → (call f ≫= k) s = (Raise e, St (locals s) w').
Proof. intros E. unfold mbind, M_bind, bind, call. by rewrite E. Qed.

Lemma bind_normal {L R A B} (m : M L R A) (k : A → M L R B) s a s' :
  m s = (Normal a, s') → (m ≫= k) s = k a s'.
Proof. intros E. unfold mbind, M_bind, bind. by rewrite E. Qed.

Lemma bind_raise {L R A B} (m : M L R A) (k : A → M L R B) s e s' :
  m s = (Raise e, s') → (m ≫= k) s = (Raise e, s').
Proof. intros E. unfold mbind, M_bind, bind. by rewrite E. Qed.

Lemma try_finally_normal {L R A} (body : M L R A) fin s o s1 s2 :
  body s = (o, s1) → fin s1 = (Normal tt, s2) →
  try_finally body fin s = (o, s2).
Proof. intros E1 E2. unfold try_finally. by rewrite E1, E2. Qed.

(** ** close *)

(** [close] never raises; it makes the calls of [close_events] and nothing
    else. *)
Lemma close_Some proc w :
  close (Some proc) w
  = (Ok tt, foldl (λ w e, emit e w) w (close_events proc)).
Proof.
  unfold close, close_events. run_monad.
  unfold close_pipe, kill_quietly, wait.
  by destruct (proc_stdin proc), (proc_stdout proc), (proc_stderr proc).
Qed.

Lemma foldl_emit_cwd evs w : w_cwd (foldl (λ w e, emit e w) w evs) = w_cwd w.
Proof.
  revert w. induction evs as [|e evs IH]; intros w; [done|].
  simpl. by rewrite IH.
Qed.

Lemma foldl_emit_files evs w :
  w_files (foldl (λ w e, emit e w) w evs) = w_files w.
Proof.
  revert w. induction evs as [|e evs IH]; intros w; [done|].
  simpl. by rewrite IH.
Qed.

Lemma foldl_emit_trace evs w :
  w_trace (foldl (λ w e, emit e w) w evs) = w_trace w ++ evs.
Proof.
  revert w. induction evs as [|e evs IH]; intros w; simpl.
  - by rewrite app_nil_r.
  - rewrite IH. simpl. by rewrite <- app_assoc.
Qed.

(** ** The two output files *)

Lemma string_app_inv_head (p s1 s2 : string) : p +:+ s1 = p +:+ s2 → s1 = s2.
Proof.
  induction p as [|c p IH]; [done|].
  intros E. apply IH. by injection E.
Qed.

Lemma is_abs_app (p s : string) :
  str_truthy p = true → is_abs (p +:+ s) = is_abs p.
Proof. by destruct p. Qed.

(** The two backing files have one directory part in common. *)
Lemma output_files_prefix c tmp :
  ∃ pre, resolve c (path_join tmp "stdout") = pre +:+ "stdout"
         ∧ resolve c (path_join tmp "stderr") = pre +:+ "stderr".
Proof.
  unfold path_join.
  change (is_abs "stdout") with false. change (is_abs "stderr") with false.
  cbv iota. destruct tmp as [|t ts].
  - exists (c +:+ "/"). unfold resolve. cbn [str_truthy negb orb].
    change ("" +:+ "stdout") with "stdout".
    change ("" +:+ "stderr") with "stderr".
    change (is_abs "stdout") with false. change (is_abs "stderr") with false.
    by rewrite <- !string_app_assoc.
  - cbn [str_truthy negb orb]. unfold resolve.
    destruct (ends_with "/" (String t ts)).
    + rewrite !is_abs_app by done. destruct (is_abs (String t ts)).
      * by exists (String t ts).
      * exists (c +:+ "/" +:+ String t ts). by rewrite <- !string_app_assoc.
    + rewrite !is_abs_app by done. destruct (is_abs (String t ts)).
      * exists (String t ts +:+ "/"). by rewrite <- !string_app_assoc.
      * exists (c +:+ "/" +:+ String t ts +:+ "/").
        by rewrite <- !string_app_assoc.
Qed.

Lemma output_files_differ c tmp :
  resolve c (path_join tmp "stdout") ≠ resolve c (path_join tmp "stderr").
Proof.
  destruct (output_files_prefix c tmp) as (pre & -> & ->).
  intros E. apply string_app_inv_head in E. discriminate.
Qed.

(** ** execute2, from its start to the spawn and after *)

Section Execute.
Context `{System} `{Externals}.

Lemma spawn_args_eq cmd args lib_dir cwd env w :
  spawn_args cmd args lib_dir cwd env w
  = {| pa_cmd := cmd :: default [] args;
       pa_cwd := or_str cwd curr_dir;
       pa_env := dict_or_None (get_env_map env lib_dir w);
       pa_stdout := resolve (w_cwd w)
                      (path_join (temp_dir_name "cmd-" w) "stdout");
       pa_stderr := resolve (w_cwd w)
                      (path_join (temp_dir_name "cmd-" w) "stderr");
       pa_shell := if on_windows then true else false |}.
Proof. unfold spawn_args, built_env. by rewrite get_env_eq. Qed.

Lemma spawn_world_trace lib_dir log w :
  w_trace (spawn_world lib_dir log w)
  = w_trace w
    ++ EvTempDir (temp_dir_name "cmd-" w)
       :: (if log then [EvLog] else [])
       ++ [EvOpen (resolve (w_cwd w)
                     (path_join (temp_dir_name "cmd-" w) "stdout"));
           EvOpen (resolve (w_cwd w)
                     (path_join (temp_dir_name "cmd-" w) "stderr"))].
Proof.
  unfold spawn_world, open_world, log_world.
  destruct log; cbn [w_trace emit set_file set_cwd add_dir];
    rewrite <- ?app_assoc; reflexivity.
Qed.

(** When the working directory is sound and the library directory (if
    any) exists, [execute2] reaches [subprocess.Popen] with the arguments
    [spawn_args] in the world [spawn_world], and goes on as the answer of
    the operating system says. *)
Lemma execute2_at_spawn cmd args lib_dir cwd env to_files log w :
  str_truthy cmd = true →
  w_cwd w ∈ w_dirs w → is_abs (w_cwd w) = true →
  truthy lib_dir = false ∨ resolve (w_cwd w) (py_str lib_dir) ∈ w_dirs w →
  let a := spawn_args cmd args lib_dir cwd env w in
  let w4 := spawn_world lib_dir log w in
  execute2 (Some cmd) args lib_dir cwd env to_files log w
  = match popen_model a w4 with
    | Err e => (Err e, set_cwd (w_cwd w) (emit (EvPopen a) w4))
    | Ok proc =>
        let w5 :=
          emit (EvCommunicate (pid proc))
            (append_file (pa_stderr a) (err_bytes proc)
               (append_file (pa_stdout a) (out_bytes proc)
                  (emit (EvPopen a) w4))) in
        let w6 := (close (Some proc) (set_cwd (w_cwd w) w5)).2 in
        let sop := path_join (temp_dir_name "cmd-" w) "stdout" in
        let sep := path_join (temp_dir_name "cmd-" w) "stderr" in
        if to_files then (Ok (returncode proc, sop, sep), w6)
        else
          match read_rb sop w6 with
          | (Err e, w7) => (Err e, w7)
          | (Ok so, w7) =>
              match read_rb sep w7 with
              | (Err e, w8) => (Err e, w8)
              | (Ok se, w8) =>
                  (Ok (returncode proc,
                       toascii (strip so), toascii (strip se)), w8)
              end
          end
    end.
Proof.
  intros Hcmd Hin Habs Hlib a w4.
  destruct cmd as [|c cmd]; [done|].
  set (tmp := temp_dir_name "cmd-" w) in *.
  set (f1 := resolve (w_cwd w) (path_join tmp "stdout")).
  set (f2 := resolve (w_cwd w) (path_join tmp "stderr")).
  set (w1 := log_world log (emit (EvTempDir tmp) (add_dir tmp w))).
  set (w3 := open_world f2 (open_world f1 w1)).
  assert (w_cwd w1 = w_cwd w) as Hc1 by (by destruct log).
  assert (w_cwd w3 = w_cwd w) as Hc3 by (by destruct log).
  assert (w_dirs w3 = {[tmp]} ∪ w_dirs w) as Hd3 by (by destruct log).
  assert (w_cwd w ∈ w_dirs w3) as Hin3
    by (rewrite Hd3; by apply elem_of_union_r).
  assert (getcwd w3 = (Ok (w_cwd w3), w3)) as E0.
  { apply getcwd_ok; by rewrite Hc3. }
  assert (str_truthy (or_str lib_dir (w_cwd w)) = true
          ∧ resolve (w_cwd w) (or_str lib_dir (w_cwd w)) ∈ w_dirs w3)
    as [Hl1 Hl2].
  { rewrite Hd3. destruct lib_dir as [[|c' l']|].
    - cbn [or_str]. rewrite (resolve_abs _ _ Habs).
      split; [by destruct (w_cwd w) | by apply elem_of_union_r].
    - split; [done|]. destruct Hlib as [?|?]; [done|].
      by apply elem_of_union_r.
    - cbn [or_str]. rewrite (resolve_abs _ _ Habs).
      split; [by destruct (w_cwd w) | by apply elem_of_union_r]. }
  assert (chdir (or_str lib_dir (w_cwd w3)) w3 = (Ok tt, w4)) as E1.
  { rewrite Hc3. subst w4. unfold spawn_world. fold tmp f1 f2 w1 w3.
    rewrite <- Hc3 at 2. apply chdir_ok; by rewrite ?Hc3. }
  assert (w_cwd w4 = resolve (w_cwd w) (or_str lib_dir (w_cwd w))) as Hc4
    by done.
  assert (w_dirs w4 = w_dirs w3) as Hd4 by done.
  assert (getcwd w4 = (Ok (w_cwd w4), w4)) as E2.
  { apply getcwd_ok; rewrite Hc4, ?Hd4; [done | by apply is_abs_resolve]. }
  pose proof (spawn_args_eq (String c cmd) args lib_dir cwd env w) as Ha.
  fold a tmp f1 f2 in Ha. unfold get_env_map in Ha.
  unfold execute2, def.
  erewrite bind_call_ok by apply get_env_eq.
  erewrite bind_call_ok by reflexivity.
  erewrite (bind_normal _ _ _ tt (St (None, 100) w1)).
  2: { subst w1. destruct log; reflexivity. }
  cbn [os locals]. fold tmp. unfold get_env_map.
  match goal with
  | |- context [try_finally ?b ?f] => set (body := b); set (fin := f)
  end.
  assert (body (St (None, 100) w1)
          = match popen_model a w4 with
            | Err e =>
                (Raise e,
                 St (None, 100) (set_cwd (w_cwd w) (emit (EvPopen a) w4)))
            | Ok proc =>
                (Normal tt,
                 St (Some proc, returncode proc)
                    (set_cwd (w_cwd w)
                       (emit (EvCommunicate (pid proc))
                          (append_file (pa_stderr a) (err_bytes proc)
                             (append_file (pa_stdout a) (out_bytes proc)
                                (emit (EvPopen a) w4))))))
            end) as Hbody.
  { subst body.
    erewrite bind_call_ok
      by (unfold open_w; cbn [os]; rewrite Hc1; reflexivity).
    erewrite bind_call_ok
      by (unfold open_w; cbn [os w_cwd emit set_file]; rewrite Hc1;
          reflexivity).
    cbn [locals]. fold f1 f2. rewrite <- Ha.
    erewrite pushd_enter; [|exact E0|exact E1|exact E2].
    cbn [os locals].
    destruct (popen_model a w4) as [proc|e] eqn:Ep.
    - erewrite bind_call_ok
        by (unfold Popen; cbn [os]; rewrite Ep; reflexivity).
      run_monad. unfold communicate. cbn [os locals proc_truthy].
      cbn [w_cwd emit set_file]. rewrite Hc1.
      rewrite chdir_abs_existing; [reflexivity|exact Habs|exact Hin3].
    - erewrite bind_call_err
        by (unfold Popen; cbn [os]; rewrite Ep; reflexivity).
      cbn [os locals w_cwd emit set_file]. rewrite Hc1.
      rewrite chdir_abs_existing; [reflexivity|exact Habs|exact Hin3]. }
  destruct (popen_model a w4) as [proc|e].
  - erewrite bind_normal.
    2: { eapply try_finally_normal; [exact Hbody|].
         subst fin. erewrite bind_normal by reflexivity.
         cbn [locals]. unfold call. cbn [os locals].
         rewrite close_Some. reflexivity. }
    erewrite bind_normal by reflexivity. cbn [locals].
    rewrite close_Some. cbn [snd].
    destruct to_files; [reflexivity|].
    cbn [negb]. run_monad. cbn [os locals].
    destruct (read_rb _ _) as [[so|e] w7]; [|reflexivity].
    cbn [os locals].
    destruct (read_rb _ w7) as [[se|e] w8]; reflexivity.
  - erewrite bind_raise.
    2: { eapply try_finally_normal; [exact Hbody|].
         subst fin. erewrite bind_normal by reflexivity. reflexivity. }
    reflexivity.
Qed.
End Execute.

(** ** bytes.strip *)

Lemma lstrip_decompose (b : bytes) :
  ∃ l, b = l ++ lstrip b ∧ Forall (λ c, is_space c = true) l.
Proof.
  induction b as [|c b (l & E & Hl)]; [by exists []|].
  simpl. destruct (is_space c) eqn:Hc.
  - exists (c :: l). split; [by rewrite E at 1 | by constructor].
  - by exists [].
Qed.

Lemma lstrip_head (b : bytes) c r : lstrip b = c :: r → is_space c = false.
Proof.
  induction b as [|x b IH]; [done|]. simpl.
  destruct (is_space x) eqn:Hx; [done|]. by intros [= <- _].
Qed.

Lemma lstrip_keeps_last (x : bytes) c :
  is_space c = false → ∃ y, lstrip (x ++ [c]) = y ++ [c].
Proof.
  intros Hc. induction x as [|a x [y IH]]; simpl.
  - rewrite Hc. by exists [].
  - destruct (is_space a); [by exists y|]. by exists (a :: x).
Qed.

(** What [strip] removes is whitespace at the two ends, and what it returns
    neither starts nor ends with whitespace: the content between the first
    and the last non-blank byte is kept as it is. *)
Lemma strip_spec (b : bytes) :
  ∃ l r, b = l ++ strip b ++ r
         ∧ Forall (λ c, is_space c = true) l
         ∧ Forall (λ c, is_space c = true) r
         ∧ (∀ c, head (strip b) = Some c → is_space c = false)
         ∧ (∀ c, last (strip b) = Some c → is_space c = false).
Proof.
  destruct (lstrip_decompose b) as (l & El & Hl).
  destruct (lstrip_decompose (reverse (lstrip b))) as (r' & Er & Hr).
  exists l, (reverse r'). unfold strip, rstrip.
  split; [|split; [done|split; [|split]]].
  - rewrite <- reverse_app, <- Er, reverse_involutive. exact El.
  - by apply Forall_reverse.
  - intros c Hc. destruct (lstrip b) as [|c0 rest] eqn:E0; [done|].
    pose proof (lstrip_head _ _ _ E0) as Hc0.
    rewrite reverse_cons in Hc.
    destruct (lstrip_keeps_last (reverse rest) c0 Hc0) as [y Ey].
    rewrite Ey, reverse_snoc in Hc. simpl in Hc. by simplify_eq.
  - intros c Hc. rewrite last_reverse in Hc.
    destruct (lstrip (reverse (lstrip b))) as [|c0 rest] eqn:E0; [done|].
    simpl in Hc. simplify_eq. by eapply lstrip_head.
Qed.

Lemma demo_toascii_ascii_only (b : bytes) : ascii_only (demo_toascii b).
Proof.
  unfold ascii_only, demo_toascii.
  rewrite String.list_ascii_of_string_of_list_ascii.
  apply Forall_map, Forall_forall. intros c _. unfold ascii_or_qmark.
  destruct (Nat.ltb_spec (nat_of_ascii (ascii_of_byte c)) 128); [done|].
  vm_compute. lia.
Qed.

(** ** What execute2 returns *)

Section Results.
Context `{System} `{Externals}.

Lemma spawn_trace cmd args lib_dir cwd env log w :
  w_trace (emit (EvPopen (spawn_args cmd args lib_dir cwd env w))
             (spawn_world lib_dir log w))
  = w_trace w ++ spawn_events cmd args lib_dir cwd env log w.
Proof.
  cbn [w_trace emit]. rewrite spawn_world_trace. unfold spawn_events.
  cbv zeta. cbn [pa_stdout pa_stderr spawn_args].
  destruct log; cbn [app]; by rewrite <- app_assoc.
Qed.

(** C2, as amended: when the operating system answers the spawn with an
    error (the executable does not exist), [execute2], started in a sound
    working directory with an existing library directory (if any), raises
    that same error, with the working directory set back, after the calls
    up to the spawn and none for a cleanup: [close] is given [None] and
    returns at once.  The exit code 100 is never returned. *)
Theorem execute2_spawn_error_propagates cmd args lib_dir cwd env to_files
    log w e :
  str_truthy cmd = true →
  w_cwd w ∈ w_dirs w → is_abs (w_cwd w) = true →
  truthy lib_dir = false ∨ resolve (w_cwd w) (py_str lib_dir) ∈ w_dirs w →
  popen_model (spawn_args cmd args lib_dir cwd env w)
    (spawn_world lib_dir log w) = Err e →
  ∃ w', execute2 (Some cmd) args lib_dir cwd env to_files log w = (Err e, w')
        ∧ w_cwd w' = w_cwd w
        ∧ events_of (execute2 (Some cmd) args lib_dir cwd env to_files log) w
          = spawn_events cmd args lib_dir cwd env log w.
Proof.
  intros Hcmd Hin Habs Hlib Ep.
  pose proof (execute2_at_spawn cmd args lib_dir cwd env to_files log w
                Hcmd Hin Habs Hlib) as E.
  cbv zeta in E. rewrite Ep in E.
  eexists. split; [exact E|]. split; [reflexivity|].
  unfold events_of. rewrite E. cbn [snd w_trace set_cwd].
  by rewrite spawn_trace, drop_app_length.
Qed.
End Results.

Section Output.
Context `{System} `{Externals}.

Lemma spawn_world_files lib_dir log w :
  w_files (spawn_world lib_dir log w)
  = <[resolve (w_cwd w) (path_join (temp_dir_name "cmd-" w) "stderr") := []]>
      (<[resolve (w_cwd w) (path_join (temp_dir_name "cmd-" w) "stdout") := []]>
         (w_files w)).
Proof. unfold spawn_world, open_world, log_world. by destruct log. Qed.

(** C4, as amended: when the process is spawned and exits,  [execute2]
    returns its exit code and, for inline output, the content of each of
    the two backing files, read in full, with the whitespace at both of
    its ends removed by [strip] and then decoded by [toascii], which gives
    7-bit text if the decoder does; with [to_files], it returns the two
    paths and reads neither file.  The cleanup runs once, before any
    read. *)
Theorem execute2_output cmd args lib_dir cwd env to_files log w proc :
  (∀ b, ascii_only (toascii b)) →
  str_truthy cmd = true →
  w_cwd w ∈ w_dirs w → is_abs (w_cwd w) = true →
  truthy lib_dir = false ∨ resolve (w_cwd w) (py_str lib_dir) ∈ w_dirs w →
  popen_model (spawn_args cmd args lib_dir cwd env w)
    (spawn_world lib_dir log w) = Ok proc →
  let sop := path_join (temp_dir_name "cmd-" w) "stdout" in
  let sep := path_join (temp_dir_name "cmd-" w) "stderr" in
  let run := execute2 (Some cmd) args lib_dir cwd env to_files log in
  let calls :=
    spawn_events cmd args lib_dir cwd env log w
    ++ EvCommunicate (pid proc) :: close_events proc in
  ∃ w',
    w_files w' !! resolve (w_cwd w) sop = Some (out_bytes proc)
    ∧ w_files w' !! resolve (w_cwd w) sep = Some (err_bytes proc)
    ∧ if to_files
      then run w = (Ok (returncode proc, sop, sep), w')
           ∧ events_of run w = calls
      else run w = (Ok (returncode proc,
                        toascii (strip (out_bytes proc)),
                        toascii (strip (err_bytes proc))), w')
           ∧ ascii_only (toascii (strip (out_bytes proc)))
           ∧ ascii_only (toascii (strip (err_bytes proc)))
           ∧ events_of run w
             = calls ++ [EvRead (resolve (w_cwd w) sop);
                         EvRead (resolve (w_cwd w) sep)].
Proof.
  intros Hascii Hcmd Hin Habs Hlib Ep sop sep run calls.
  pose proof (execute2_at_spawn cmd args lib_dir cwd env to_files log w
                Hcmd Hin Habs Hlib) as E.
  cbv zeta in E. rewrite Ep in E. rewrite close_Some in E. cbn [snd] in E.
  fold sop sep in E.
  set (a := spawn_args cmd args lib_dir cwd env w) in *.
  set (f1 := resolve (w_cwd w) sop). set (f2 := resolve (w_cwd w) sep).
  assert (pa_stdout a = f1) as Ef1 by done.
  assert (pa_stderr a = f2) as Ef2 by done.
  rewrite Ef1, Ef2 in E.
  assert (f1 ≠ f2) as Hne by apply output_files_differ.
  set (w5 := emit (EvCommunicate (pid proc))
               (append_file f2 (err_bytes proc)
                  (append_file f1 (out_bytes proc)
                     (emit (EvPopen a) (spawn_world lib_dir log w))))) in *.
  set (w6 := foldl (λ w e, emit e w) (set_cwd (w_cwd w) w5)
               (close_events proc)) in *.
  assert (w_files w5 = <[f2 := err_bytes proc]> (<[f1 := out_bytes proc]>
            (w_files (spawn_world lib_dir log w)))) as Hfiles5.
  { subst w5. unfold append_file.
    cbn [w_files emit set_file]. rewrite spawn_world_files.
    fold sop sep f1 f2.
    rewrite (lookup_insert_ne _ f2 f1) by done.
    rewrite !lookup_insert_eq.
    rewrite (lookup_insert_ne _ f1 f2) by done.
    rewrite lookup_insert_eq. reflexivity. }
  assert (w_files w6 !! f1 = Some (out_bytes proc)) as Hout.
  { subst w6. rewrite foldl_emit_files. cbn [w_files set_cwd].
    rewrite Hfiles5, lookup_insert_ne by done. apply lookup_insert_eq. }
  assert (w_files w6 !! f2 = Some (err_bytes proc)) as Herr.
  { subst w6. rewrite foldl_emit_files. cbn [w_files set_cwd].
    rewrite Hfiles5. apply lookup_insert_eq. }
  assert (w_cwd w6 = w_cwd w) as Hcwd6.
  { subst w6. by rewrite foldl_emit_cwd. }
  assert (w_trace w6 = w_trace w ++ calls) as Htrace6.
  { subst w6 w5 calls. rewrite foldl_emit_trace.
    cbn [w_trace set_cwd emit append_file set_file].
    pose proof (spawn_trace cmd args lib_dir cwd env log w) as Ht.
    cbn [w_trace emit] in Ht. fold a in Ht. rewrite Ht.
    rewrite <- !app_assoc. reflexivity. }
  destruct to_files.
  - exists w6. split; [done|]. split; [done|]. split; [exact E|].
    unfold events_of. subst run. rewrite E. cbn [snd].
    by rewrite Htrace6, drop_app_length.
  - assert (read_rb sop w6 = (Ok (out_bytes proc), emit (EvRead f1) w6))
      as R1.
    { unfold read_rb. rewrite Hcwd6. fold f1. by rewrite Hout. }
    assert (read_rb sep (emit (EvRead f1) w6)
            = (Ok (err_bytes proc), emit (EvRead f2) (emit (EvRead f1) w6)))
      as R2.
    { unfold read_rb. cbn [w_cwd w_files emit]. rewrite Hcwd6. fold f2.
      by rewrite Herr. }
    rewrite R1, R2 in E.
    exists (emit (EvRead f2) (emit (EvRead f1) w6)).
    split; [done|]. split; [done|]. split; [exact E|].
    split; [apply Hascii|]. split; [apply Hascii|].
    unfold events_of. subst run. rewrite E.
    cbn [snd w_trace emit]. rewrite Htrace6, <- !app_assoc.
    by rewrite drop_app_length.
Qed.
End Output.

(** ** Which calls a run makes *)

Section Calls.
Variable P : event → Prop.

Lemma calls_only_refl w : calls_only P w w.
Proof. exists []. by rewrite app_nil_r. Qed.

Lemma calls_only_same w w' : w_trace w' = w_trace w → calls_only P w w'.
Proof. intros E. exists []. by rewrite app_nil_r. Qed.

Lemma calls_only_trans w1 w2 w3 :
  calls_only P w1 w2 → calls_only P w2 w3 → calls_only P w1 w3.
Proof.
  intros (e1 & E1 & F1) (e2 & E2 & F2). exists (e1 ++ e2).
  split; [by rewrite E2, E1, app_assoc | by apply Forall_app].
Qed.

Lemma calls_only_emit e w w' :
  P e → calls_only P w w' → calls_only P w (emit e w').
Proof.
  intros He (evs & E & Hf). exists (evs ++ [e]). split.
  - simpl. by rewrite E, app_assoc.
  - apply Forall_app. split; [done | by constructor].
Qed.

Lemma M_calls_ret {L R A} (a : A) : M_calls P (mret a : M L R A).
Proof. intros s. apply calls_only_refl. Qed.

Lemma M_calls_return {L R A} (r : R) : M_calls P (return_ r : M L R A).
Proof. intros s. apply calls_only_refl. Qed.

Lemma M_calls_get_locals {L R} : M_calls P (get_locals : M L R L).
Proof. intros s. apply calls_only_refl. Qed.

Lemma M_calls_set_locals {L R} (l : L) :
  M_calls P (set_locals l : M L R unit).
Proof. intros s. apply calls_only_refl. Qed.

Lemma M_calls_call {L R A} (f : F A) :
  F_calls P f → M_calls P (call f : M L R A).
Proof.
  intros Hf s. specialize (Hf (os s)). unfold call.
  by destruct (f (os s)) as [[a|e] w'].
Qed.

Lemma M_calls_bind {L R A B} (m : M L R A) (k : A → M L R B) :
  M_calls P m → (∀ a, M_calls P (k a)) → M_calls P (m ≫= k).
Proof.
  intros Hm Hk s. specialize (Hm s). unfold mbind, M_bind, bind.
  destruct (m s) as [[a|r|e] s1]; try done.
  eapply calls_only_trans; [exact Hm | apply Hk].
Qed.

Lemma M_calls_try_finally {L R A} (body : M L R A) fin :
  M_calls P body → M_calls P fin → M_calls P (try_finally body fin).
Proof.
  intros Hb Hf s. specialize (Hb s). unfold try_finally.
  destruct (body s) as [o s1]. specialize (Hf s1).
  destruct (fin s1) as [[?|?|?] s2]; by eapply calls_only_trans.
Qed.

Lemma F_calls_getcwd : F_calls P getcwd.
Proof.
  intros w. unfold getcwd. destruct (_ && _); apply calls_only_refl.
Qed.

Lemma F_calls_chdir p : F_calls P (chdir p).
Proof.
  intros w. unfold chdir. destruct (_ && _); by apply calls_only_same.
Qed.

(** [pushd] itself makes no call that is traced: what a [with pushd]
    statement calls is what its block calls. *)
Lemma M_calls_pushd {L R A} path (body : string → M L R A) :
  (∀ d, M_calls P (body d)) → M_calls P (pushd path body).
Proof.
  intros Hb. unfold pushd.
  apply M_calls_bind; [apply M_calls_call, F_calls_getcwd|]. intros orig.
  apply M_calls_try_finally; [|apply M_calls_call, F_calls_chdir].
  apply M_calls_bind; [apply M_calls_call, F_calls_chdir|]. intros _.
  apply M_calls_bind; [apply M_calls_call, F_calls_getcwd|]. done.
Qed.

Lemma F_calls_close proc :
  P EvClosePipe → (∀ n, P (EvKill n)) → (∀ n, P (EvWait n)) →
  F_calls P (close proc).
Proof.
  intros Hp Hk Hw w. destruct proc as [p|]; [|apply calls_only_refl].
  rewrite close_Some. cbn [snd]. exists (close_events p).
  split; [apply foldl_emit_trace|]. unfold close_events, pipe_events.
  destruct (proc_stdin p), (proc_stdout p), (proc_stderr p);
    repeat constructor; done.
Qed.

Lemma F_calls_read_rb p : (∀ f, P (EvRead f)) → F_calls P (read_rb p).
Proof.
  intros Hp w. unfold read_rb. destruct (_ !! _); cbn [snd].
  - apply calls_only_emit; [done | apply calls_only_refl].
  - apply calls_only_refl.
Qed.

Lemma events_of_calls {A} (f : F A) w :
  F_calls P f → Forall P (events_of f w).
Proof.
  intros Hf. destruct (Hf w) as (evs & E & Hevs). unfold events_of.
  by rewrite E, drop_app_length.
Qed.
End Calls.

Section Inherit.
Context `{System} `{Externals}.

(** With no base map and no library-search-path variable to add, every
    call [execute2] makes is one that hands no environment over. *)
Lemma execute2_calls_without_env cmd_loc args lib_dir cwd to_files log :
  truthy lib_dir = false ∨ on_posix = false →
  F_calls without_env (execute2 cmd_loc args lib_dir cwd None to_files log).
Proof.
  intros Hno w. unfold execute2.
  destruct cmd_loc as [[|c cmd]|]; try apply calls_only_refl.
  unfold def.
  erewrite bind_call_ok by (apply get_env_empty, Hno).
  cbn [os locals].
  match goal with
  | |- context [let (_, _) := ?m ?s in _] =>
      assert (M_calls without_env m) as Hm
  end.
  { apply M_calls_bind.
    { apply M_calls_call. intros w0. unfold get_temp_dir. cbn [snd].
      apply calls_only_emit; [done | by apply calls_only_same]. }
    intros tmp. apply M_calls_bind.
    { destruct log; [|apply M_calls_ret]. apply M_calls_call. intros w0.
      apply calls_only_emit; [done | apply calls_only_refl]. }
    intros _. apply M_calls_bind.
    { apply M_calls_try_finally.
      - apply M_calls_bind.
        { apply M_calls_call. intros w0. unfold open_w. cbn [snd].
          apply calls_only_emit; [done | by apply calls_only_same]. }
        intros stdout. apply M_calls_bind.
        { apply M_calls_call. intros w0. unfold open_w. cbn [snd].
          apply calls_only_emit; [done | by apply calls_only_same]. }
        intros stderr. apply M_calls_pushd. intros _.
        apply M_calls_bind.
        { apply M_calls_call. intros w0. unfold Popen. cbn [snd].
          apply calls_only_emit; [reflexivity | apply calls_only_refl]. }
        intros proc. apply M_calls_bind; [apply M_calls_get_locals|].
        intros [? rc]. apply M_calls_bind; [apply M_calls_set_locals|].
        intros _. apply M_calls_bind; [|intros _; apply M_calls_set_locals].
        apply M_calls_call. intros w0. unfold communicate. cbn [snd].
        apply calls_only_emit; [done | by apply calls_only_same].
      - apply M_calls_bind; [apply M_calls_get_locals|].
        intros [proc ?]. apply M_calls_call. by apply F_calls_close. }
    intros _. apply M_calls_bind; [apply M_calls_get_locals|].
    intros [? rc]. destruct to_files; cbn [negb]; [apply M_calls_return|].
    apply M_calls_bind; [by apply M_calls_call, F_calls_read_rb|].
    intros so. apply M_calls_bind; [by apply M_calls_call, F_calls_read_rb|].
    intros se. apply M_calls_return. }
  match goal with
  | |- context [let (_, _) := ?m ?s in _] =>
      specialize (Hm s); destruct (m s) as [[?|?|?] s1]
  end; exact Hm.
Qed.

(** C10: when the caller gives no base environment and [get_env] has no
    library-search-path variable to add (no library directory, or a
    platform that is not POSIX), every [subprocess.Popen] call that
    [execute2] makes has [env=None], the empty map having been turned into
    [None], so that the child gets the environment of the parent. *)
Theorem execute2_inherits_environ cmd_loc args lib_dir cwd to_files log w :
  truthy lib_dir = false ∨ on_posix = false →
  built_env None lib_dir w = None
  ∧ ∀ a, EvPopen a
           ∈ events_of
               (execute2 cmd_loc args lib_dir cwd None to_files log) w →
         pa_env a = None
         ∧ child_environ a w = Some <$> w_environ w.
Proof.
  intros Hno. split.
  { unfold built_env. by rewrite (get_env_empty _ _ Hno). }
  intros a Ha.
  pose proof (events_of_calls _ _ w
                (execute2_calls_without_env cmd_loc args lib_dir cwd
                   to_files log Hno)) as Hall.
  rewrite Forall_forall in Hall. specialize (Hall _ Ha). simpl in Hall.
  split; [done|]. unfold child_environ. by rewrite Hall.
Qed.
End Inherit.

(** ** The concrete host *)

Lemma demo_world_cwd_exists : w_cwd demo_world ∈ w_dirs demo_world.
Proof. vm_compute. set_solver. Qed.

Lemma demo_world_lib_exists :
  resolve (w_cwd demo_world) (py_str (Some "/opt/lib")) ∈ w_dirs demo_world.
Proof. vm_compute. set_solver. Qed.

(** C2, as stated, fails: the spawn of an executable that does not exist
    raises out of [execute2]; no exit code, 100 or other, is returned. *)
Lemma execute2_missing_executable_raises :
  @popen_model demo_externals
    (@spawn_args posix_system demo_externals "/bin/nothing" None None None None
       demo_world)
    (@spawn_world demo_externals None false demo_world)
  = Err (FileNotFoundError ["No such file or directory"])
  ∧ (@execute2 posix_system demo_externals (Some "/bin/nothing") None None None
       None false false demo_world).1
    = Err (FileNotFoundError ["No such file or directory"])
  ∧ ∀ so se w',
      @execute2 posix_system demo_externals (Some "/bin/nothing") None None
        None None false false demo_world
      ≠ (Ok (100, so, se), w').
Proof.
  split; [reflexivity|].
  assert ((@execute2 posix_system demo_externals (Some "/bin/nothing") None
             None None None false false demo_world).1
          = Err (FileNotFoundError ["No such file or directory"])) as E
    by (vm_compute; reflexivity).
  split; [exact E|].
  intros so se w' E'. rewrite E' in E. discriminate.
Qed.

Lemma execute2_spawn_error_propagates_witness :
  ∃ w',
    @execute2 posix_system demo_externals (Some "/bin/nothing") None
      (Some "/opt/lib") None None false false demo_world
    = (Err (FileNotFoundError ["No such file or directory"]), w')
    ∧ w_cwd w' = w_cwd demo_world
    ∧ events_of
        (@execute2 posix_system demo_externals (Some "/bin/nothing") None
           (Some "/opt/lib") None None false false) demo_world
      = @spawn_events posix_system demo_externals "/bin/nothing" None
          (Some "/opt/lib") None None false demo_world.
Proof.
  apply (@execute2_spawn_error_propagates posix_system demo_externals
           "/bin/nothing" None (Some "/opt/lib") None None false false
           demo_world).
  - reflexivity.
  - exact demo_world_cwd_exists.
  - reflexivity.
  - right. exact demo_world_lib_exists.
  - reflexivity.
Defined.

(** C4, as stated, fails: the tool writes [" X\n"] to its output, and the
    payload is ["X"]; with the trailing whitespace alone removed it would
    be [" X"]. *)
Lemma execute2_strips_leading_whitespace :
  out_bytes demo_process = [Byte.x20; Byte.x58; Byte.x0a]
  ∧ (@execute2 posix_system demo_externals (Some "/bin/tool") None None None
       None false false demo_world).1
    = Ok (7, "X", "Y")
  ∧ @toascii demo_externals (rstrip (out_bytes demo_process)) = " X"
  ∧ (@execute2 posix_system demo_externals (Some "/bin/tool") None None None
       None false false demo_world).1
    ≠ Ok (7, @toascii demo_externals (rstrip (out_bytes demo_process)),
          @toascii demo_externals (rstrip (err_bytes demo_process))).
Proof.
  split; [reflexivity|].
  assert ((@execute2 posix_system demo_externals (Some "/bin/tool") None None
             None None false false demo_world).1
          = Ok (7, "X", "Y")) as E by (vm_compute; reflexivity).
  split; [exact E|]. split; [reflexivity|].
  rewrite E. vm_compute. discriminate.
Qed.

Lemma execute2_output_witness :
  ∃ w',
    @execute2 posix_system demo_externals (Some "/bin/tool") None
      (Some "/opt/lib") None None false false demo_world
    = (Ok (7, "X", "Y"), w')
    ∧ w_files w' !! "/tmp/cmd-0/stdout" = Some [Byte.x20; Byte.x58; Byte.x0a].
Proof.
  destruct (@execute2_output posix_system demo_externals "/bin/tool" None
              (Some "/opt/lib") None None false false demo_world demo_process)
    as (w' & Hout & _ & Hrun & _).
  - exact demo_toascii_ascii_only.
  - reflexivity.
  - exact demo_world_cwd_exists.
  - reflexivity.
  - right. exact demo_world_lib_exists.
  - reflexivity.
  - exists w'. split; [exact Hrun | exact Hout].
Defined.

Lemma execute2_inherits_environ_witness :
  EvPopen demo_popen_args
  ∈ events_of
      (@execute2 posix_system demo_externals (Some "/bin/tool") None None None
         None false false) demo_world
  ∧ pa_env demo_popen_args = None
  ∧ child_environ demo_popen_args demo_world = Some <$> w_environ demo_world.
Proof.
  assert (EvPopen demo_popen_args
          ∈ events_of
              (@execute2 posix_system demo_externals (Some "/bin/tool") None
                 None None None false false) demo_world) as Hin.
  { apply list_elem_of_In. vm_compute. do 3 right. left. reflexivity. }
  split; [exact Hin|].
  destruct (@execute2_inherits_environ posix_system demo_externals
              (Some "/bin/tool") None None None false false demo_world)
    as [_ Hall].
  - left. reflexivity.
  - exact (Hall _ Hin).
Defined.

(** * Further properties *)

(** ** Segments of a PATH-like string *)

Lemma split_from_no_sep sep cur s :
  has_char sep s = false → split_from sep cur s = [cur +:+ s].
Proof.
  revert cur. induction s as [|c s IH]; intros cur Hs; simpl.
  - by rewrite string_app_nil_r.
  - simpl in Hs. apply orb_false_iff in Hs as [Hc Hs]. rewrite Hc.
    rewrite IH by done. by rewrite <- string_app_assoc.
Qed.

Lemma split_no_sep sep s : has_char sep s = false → split sep s = [s].
Proof. intros Hs. unfold split. by rewrite split_from_no_sep. Qed.

Lemma split_from_app_sep sep cur a b :
  split_from sep cur (a +:+ String sep b)
  = split_from sep cur a ++ split sep b.
Proof.
  revert cur. induction a as [|c a IH]; intros cur.
  - change ("" +:+ String sep b) with (String sep b). simpl.
    by rewrite Ascii.eqb_refl.
  - change (String c a +:+ String sep b) with (String c (a +:+ String sep b)).
    simpl. destruct (Ascii.eqb c sep); by rewrite IH.
Qed.

(** Splitting a string at one of its separators splits the two parts. *)
Lemma split_app_sep sep a b :
  split sep (a +:+ String sep b) = split sep a ++ split sep b.
Proof. apply split_from_app_sep. Qed.

Lemma has_char_app c a b :
  has_char c (a +:+ b) = has_char c a || has_char c b.
Proof.
  induction a as [|x a IH]; [done|].
  change (String x a +:+ b) with (String x (a +:+ b)). simpl.
  by rewrite IH, orb_assoc.
Qed.

Lemma split_from_segments sep cur s x :
  x ∈ split_from sep cur s → has_char sep cur = false →
  has_char sep x = false.
Proof.
  revert cur. induction s as [|c s IH]; intros cur; simpl.
  - by intros ->%list_elem_of_singleton.
  - destruct (Ascii.eqb c sep) eqn:Hc.
    + intros [->|Hin]%elem_of_cons Hcur; [done|]. by apply (IH "").
    + intros Hin Hcur. apply (IH _ Hin).
      rewrite has_char_app, Hcur. simpl. by rewrite Hc.
Qed.

(** No segment contains the separator. *)
Lemma split_segments sep s x : x ∈ split sep s → has_char sep x = false.
Proof. intros Hin. by apply (split_from_segments sep "" s). Qed.

Section Merge.
Context `{System}.

(** The two ways [update_path_var] ends for a new path that is given. *)
Lemma update_path_var_cases (existing : pystr) (S : string) :
S ≠ "" →
update_path_var existing (Some S)
= if bool_decide (S ∈ split pathsep (or_str existing ""))
  then Some (or_str existing "")
  else Some (S +:+ String pathsep (or_str existing "")).
Proof.
intros HS. unfold update_path_var. destruct S as [|c S']; [done|].
unfold fsdecode.
destruct (split pathsep (or_str existing "")) as [|x l] eqn:E.
{ by apply split_nonempty in E. }
destruct (decide (String c S' ∈ x :: l)) as [Hin|Hnin].
- rewrite bool_decide_eq_false_2 by (by intros Hn).
  by rewrite bool_decide_eq_true_2.
- rewrite bool_decide_eq_true_2 by done.
  rewrite bool_decide_eq_false_2 by done.
  rewrite <- E, join_cons by apply split_nonempty.
  by rewrite join_split.
Qed.

(** X1: when a non-empty new path is not among the segments of the existing
  string, the segments of the result are those of the new path followed
  by those of the existing string: nothing is lost or reordered. *)
Theorem update_path_var_segments (P S : string) :
S ≠ "" → S ∉ split pathsep P →
∃ r, update_path_var (Some P) (Some S) = Some r
     ∧ split pathsep r = split pathsep S ++ split pathsep P.
Proof.
intros HS Hnin. rewrite update_path_var_cases by done.
rewrite or_str_Some, bool_decide_eq_false_2 by done.
eexists. split; [reflexivity | apply split_app_sep].
Qed.

(** X2: merging the same new path a second time changes nothing, whatever
  the existing value ([None], empty or a string), provided the new path
  does not contain the separator. *)
Theorem update_path_var_idempotent (existing : pystr) (S : string) :
has_char pathsep S = false →
update_path_var (update_path_var existing (Some S)) (Some S)
= update_path_var existing (Some S).
Proof.
intros Hsep. destruct (decide (S = "")) as [->|HS]; [done|].
rewrite (update_path_var_cases existing) by done.
set (P := or_str existing "").
destruct (decide (S ∈ split pathsep P)) as [Hin|Hnin].
- rewrite bool_decide_eq_true_2 by done.
  rewrite update_path_var_cases, or_str_Some by done.
  by rewrite bool_decide_eq_true_2.
- rewrite bool_decide_eq_false_2 by done.
  rewrite update_path_var_cases, or_str_Some by done.
  rewrite bool_decide_eq_true_2; [done|].
  rewrite split_app_sep, split_no_sep by done.
  apply elem_of_app. left. by apply list_elem_of_singleton.
Qed.

(** X3: a new path that contains the separator is never found among the
  segments, so it is put in front on every call: merging it twice leaves
  it twice in the result. *)
Theorem update_path_var_separator_in_new_path (P S : string) :
has_char pathsep S = true →
update_path_var (Some P) (Some S) = Some (S +:+ String pathsep P)
∧ update_path_var (update_path_var (Some P) (Some S)) (Some S)
  = Some (S +:+ String pathsep (S +:+ String pathsep P)).
Proof.
intros Hsep.
assert (S ≠ "") as HS by (by intros ->).
assert (∀ Q, S ∉ split pathsep Q) as Hnin.
{ intros Q Hin. apply split_segments in Hin. congruence. }
assert (∀ Q, update_path_var (Some Q) (Some S)
             = Some (S +:+ String pathsep Q)) as Hup.
{ intros Q. rewrite update_path_var_cases, or_str_Some by done.
  by rewrite bool_decide_eq_false_2. }
split; [apply Hup|]. by rewrite !Hup.
Qed.

(** X4: after the merge of a non-empty new path without separator, that
  path is one of the segments of the result and every segment of the
  existing string still is, whatever the existing value. *)
Theorem update_path_var_member (existing : pystr) (S : string) :
S ≠ "" → has_char pathsep S = false →
∃ r, update_path_var existing (Some S) = Some r
     ∧ S ∈ split pathsep r
     ∧ ∀ x, x ∈ split pathsep (or_str existing "") → x ∈ split pathsep r.
Proof.
intros HS Hsep. rewrite update_path_var_cases by done.
destruct (decide (S ∈ split pathsep (or_str existing ""))) as [Hin|Hnin].
- rewrite bool_decide_eq_true_2 by done. eauto.
- rewrite bool_decide_eq_false_2 by done. eexists. split; [done|].
  rewrite split_app_sep, split_no_sep by done.
  split; [by apply elem_of_app; left; apply list_elem_of_singleton|].
  intros x Hx. apply elem_of_app. by right.
Qed.
End Merge.

Lemma update_path_var_segments_witness :
  ∃ r, @update_path_var posix_system (Some "/a:/b") (Some "/usr/lib") = Some r
       ∧ split ":" r = split ":" "/usr/lib" ++ split ":" "/a:/b".
Proof.
  apply (@update_path_var_segments posix_system "/a:/b" "/usr/lib").
  - discriminate.
  - vm_compute. intros Hin. inversion Hin as [|? ? ? Hin']; subst.
    inversion Hin' as [|? ? ? Hin'']; subst. inversion Hin''.
Defined.

Lemma update_path_var_idempotent_witness :
  @update_path_var posix_system
    (@update_path_var posix_system None (Some "/usr/lib")) (Some "/usr/lib")
  = @update_path_var posix_system None (Some "/usr/lib").
Proof.
  apply (@update_path_var_idempotent posix_system None "/usr/lib").
  reflexivity.
Defined.

Lemma update_path_var_separator_in_new_path_witness :
  @update_path_var posix_system (Some "/a") (Some "/x:/y") = Some "/x:/y:/a"
  ∧ @update_path_var posix_system
      (@update_path_var posix_system (Some "/a") (Some "/x:/y")) (Some "/x:/y")
    = Some "/x:/y:/x:/y:/a".
Proof.
  apply (@update_path_var_separator_in_new_path posix_system "/a" "/x:/y").
  reflexivity.
Defined.

Lemma update_path_var_member_witness :
  ∃ r, @update_path_var posix_system (Some "/a:/b") (Some "/usr/lib") = Some r
       ∧ "/usr/lib" ∈ split ":" r
       ∧ ∀ x, x ∈ split ":" (or_str (Some "/a:/b") "") → x ∈ split ":" r.
Proof.
  apply (@update_path_var_member posix_system (Some "/a:/b") "/usr/lib").
  - discriminate.
  - reflexivity.
Defined.

(** ** The environment that get_env builds *)

Section EnvironmentMore.
Context `{System}.

Lemma get_env_map_plain base_vars lib_dir w :
truthy lib_dir && on_posix = false →
get_env_map base_vars lib_dir w = default ∅ base_vars.
Proof.
intros Hno. unfold get_env_map. rewrite Hno. unfold dict_truthy.
destruct base_vars as [m|]; [|done]. cbn [default].
destruct (decide (m = ∅)) as [->|Hne].
- by rewrite bool_decide_eq_true_2.
- rewrite bool_decide_eq_false_2 by done. cbn [negb].
  by rewrite (right_id_L ∅ (∪)).
Qed.

Lemma get_env_map_lib base_vars lib_dir w :
truthy lib_dir && on_posix = true →
get_env_map base_vars lib_dir w
= <[DYLD_LIBRARY_PATH :=
      update_path_var (w_environ w !! DYLD_LIBRARY_PATH)
        (Some (py_str lib_dir))]>
    (<[LD_LIBRARY_PATH :=
         update_path_var (w_environ w !! LD_LIBRARY_PATH)
           (Some (py_str lib_dir))]> (default ∅ base_vars)).
Proof.
intros Hlib. unfold get_env_map. rewrite Hlib. unfold dict_truthy.
destruct base_vars as [m|]; [|done]. cbn [default].
destruct (decide (m = ∅)) as [->|Hne].
- by rewrite bool_decide_eq_true_2.
- rewrite bool_decide_eq_false_2 by done. cbn [negb].
  by rewrite (right_id_L ∅ (∪)).
Qed.

(** X5: without a library directory, or on a platform that is not POSIX,
  [get_env] returns the base map as it is (the empty map when there is
  none) and leaves the world alone: the library directory plays no
  part. *)
Theorem get_env_without_library_path base_vars lib_dir w :
truthy lib_dir = false ∨ on_posix = false →
get_env base_vars lib_dir w = (Ok (default ∅ base_vars), w).
Proof.
intros Hno. rewrite get_env_eq, get_env_map_plain; [done|].
destruct Hno as [-> | ->]; [done | apply andb_false_r].
Qed.

(** X6: on POSIX with a library directory, the keys of the result are
  those of the base map and the two library-search-path variables, and
  the values of these two are text, never [None]. *)
Theorem get_env_keys base_vars (lib_dir : string) w :
on_posix = true → str_truthy lib_dir = true →
∃ m ld dyld,
  get_env base_vars (Some lib_dir) w = (Ok m, w)
  ∧ dom m = {[LD_LIBRARY_PATH; DYLD_LIBRARY_PATH]} ∪ dom (default ∅ base_vars)
  ∧ m !! LD_LIBRARY_PATH = Some (Some ld)
  ∧ m !! DYLD_LIBRARY_PATH = Some (Some dyld).
Proof.
intros Hposix Hdir.
assert (lib_dir ≠ "") as Hne by (by intros ->).
rewrite get_env_eq, get_env_map_lib
  by (cbn [truthy]; by rewrite Hdir, Hposix).
cbn [py_str].
assert (∀ e, ∃ r, update_path_var e (Some lib_dir) = Some r) as Htext.
{ intros e. rewrite update_path_var_cases by done.
  destruct (bool_decide _); eauto. }
destruct (Htext (w_environ w !! LD_LIBRARY_PATH)) as [ld ->].
destruct (Htext (w_environ w !! DYLD_LIBRARY_PATH)) as [dyld ->].
eexists _, ld, dyld. split; [reflexivity|]. split; [|split].
- rewrite !dom_insert_L. apply set_eq. intros x.
  rewrite !elem_of_union, !elem_of_singleton. tauto.
- rewrite lookup_insert_ne by done. by rewrite lookup_insert_eq.
- by rewrite lookup_insert_eq.
Qed.

(** X7: feeding the result of [get_env] back as the base map, with the
  same library directory, gives the same map again. *)
Theorem get_env_idempotent base_vars lib_dir w m :
get_env base_vars lib_dir w = (Ok m, w) →
get_env (Some m) lib_dir w = (Ok m, w).
Proof.
rewrite !get_env_eq. intros [= <-]. f_equal. f_equal.
destruct (truthy lib_dir && on_posix) eqn:Hlib.
- rewrite (get_env_map_lib (Some _)) by done. cbn [default].
  rewrite get_env_map_lib by done.
  apply map_eq. intros k. unfold id.
  rewrite !lookup_insert. by repeat case_decide.
- rewrite (get_env_map_plain (Some _)) by done. reflexivity.
Qed.

(** X8: on POSIX, the library directory (not empty, without separator) is
  one of the segments of the value that [get_env] gives to each of the
  two library-search-path variables. *)
Theorem get_env_library_path_listed base_vars (lib_dir : string) w :
on_posix = true → str_truthy lib_dir = true →
has_char pathsep lib_dir = false →
∃ m ld dyld,
  get_env base_vars (Some lib_dir) w = (Ok m, w)
  ∧ m !! LD_LIBRARY_PATH = Some (Some ld)
  ∧ lib_dir ∈ split pathsep ld
  ∧ m !! DYLD_LIBRARY_PATH = Some (Some dyld)
  ∧ lib_dir ∈ split pathsep dyld.
Proof.
intros Hposix Hdir Hsep.
assert (lib_dir ≠ "") as Hne by (by intros ->).
assert (∀ e, ∃ r, update_path_var e (Some lib_dir) = Some r
                  ∧ lib_dir ∈ split pathsep r) as Hmem.
{ intros e. rewrite update_path_var_cases by done.
  destruct (decide (lib_dir ∈ split pathsep (or_str e ""))) as [Hin|Hnin].
  - rewrite bool_decide_eq_true_2 by done. eauto.
  - rewrite bool_decide_eq_false_2 by done. eexists. split; [done|].
    rewrite split_app_sep, split_no_sep by done.
    apply elem_of_app. left. by apply list_elem_of_singleton. }
destruct (Hmem (w_environ w !! LD_LIBRARY_PATH)) as (ld & Eld & Hld).
destruct (Hmem (w_environ w !! DYLD_LIBRARY_PATH)) as (dyld & Edyld & Hdyld).
rewrite get_env_eq, get_env_map_lib
  by (cbn [truthy]; by rewrite Hdir, Hposix).
cbn [py_str]. rewrite Eld, Edyld.
eexists _, ld, dyld. split; [reflexivity|].
split; [|split; [done|split; [|done]]].
- rewrite lookup_insert_ne by done. by rewrite lookup_insert_eq.
- by rewrite lookup_insert_eq.
Qed.
End EnvironmentMore.

Lemma get_env_without_library_path_witness :
  @get_env posix_system (Some {[ "HOME" := Some "/home/user" ]}) None
    demo_world
  = (Ok (default ∅ (Some {[ "HOME" := Some "/home/user" ]})), demo_world).
Proof.
  apply (@get_env_without_library_path posix_system).
  left. reflexivity.
Defined.

Lemma get_env_keys_witness :
  ∃ m ld dyld,
    @get_env posix_system (Some {[ "HOME" := Some "/home/user" ]})
      (Some "/opt/lib") demo_world = (Ok m, demo_world)
    ∧ dom m = {[LD_LIBRARY_PATH; DYLD_LIBRARY_PATH]}
              ∪ dom (default ∅ (Some ({[ "HOME" := Some "/home/user" ]}
                                        : gmap string pystr)))
    ∧ m !! LD_LIBRARY_PATH = Some (Some ld)
    ∧ m !! DYLD_LIBRARY_PATH = Some (Some dyld).
Proof.
  apply (@get_env_keys posix_system); reflexivity.
Defined.

Lemma get_env_idempotent_witness :
  @get_env posix_system
    (Some (@get_env_map posix_system None (Some "/opt/lib") demo_world))
    (Some "/opt/lib") demo_world
  = (Ok (@get_env_map posix_system None (Some "/opt/lib") demo_world),
     demo_world).
Proof.
  apply (@get_env_idempotent posix_system None (Some "/opt/lib")).
  apply get_env_eq.
Defined.

Lemma get_env_library_path_listed_witness :
  ∃ m ld dyld,
    @get_env posix_system None (Some "/opt/lib") demo_world = (Ok m, demo_world)
    ∧ m !! LD_LIBRARY_PATH = Some (Some ld)
    ∧ "/opt/lib" ∈ split ":" ld
    ∧ m !! DYLD_LIBRARY_PATH = Some (Some dyld)
    ∧ "/opt/lib" ∈ split ":" dyld.
Proof.
  apply (@get_env_library_path_listed posix_system); reflexivity.
Defined.

(** ** More on pushd *)

Lemma st_eta {L} (s : st L) : St (locals s) (os s) = s.
Proof. by destruct s. Qed.

(** When the target cannot be entered, the block is not run and nothing
    has changed. *)
Lemma pushd_refuses {L R A} (p : string) (body : string → M L R A) (s : st L) :
  getcwd (os s) = (Ok (w_cwd (os s)), os s) →
  str_truthy p = true →
  resolve (w_cwd (os s)) p ∉ w_dirs (os s) →
  pushd (Some p) body s = (Raise (FileNotFoundError ["chdir"; p]), s).
Proof.
  intros E0 Hp Hnin.
  pose proof (getcwd_inv _ _ _ E0) as [_ [(_ & Hin & Habs)|[e [=]]]].
  unfold pushd. run_monad. rewrite E0. cbn [os locals].
  assert (or_str (Some p) (w_cwd (os s)) = p) as -> by (by destruct p).
  assert (chdir p (os s) = (Err (FileNotFoundError ["chdir"; p]), os s)) as ->.
  { unfold chdir. by rewrite Hp, bool_decide_eq_false_2. }
  cbn [os locals]. rewrite (chdir_abs_existing _ _ Habs Hin).
  by rewrite set_cwd_same, st_eta.
Qed.

(** X9: when the working directory is sound and the target does not name
    an existing directory, [with pushd(target)] raises an [OSError] without
    running the block: the state is exactly the one before. *)
Theorem pushd_missing_target {L R A} (p : string) (body : string → M L R A)
    (s : st L) :
  getcwd (os s) = (Ok (w_cwd (os s)), os s) →
  str_truthy p = true →
  resolve (w_cwd (os s)) p ∉ w_dirs (os s) →
  ∃ e, pushd (Some p) body s = (Raise e, s) ∧ is_OSError e = true.
Proof.
  intros E0 Hp Hnin. eexists. split; [by apply pushd_refuses|done].
Qed.

(** X10: with no target ([None] or the empty string), the block runs in the
    very state of the caller and is handed the current working directory;
    the call ends as the block ends, with the working directory put back
    in case the block moved (the block leaving that directory in place). *)
Theorem pushd_without_target {L R A} (path : pystr) (body : string → M L R A)
    (s : st L) :
  truthy path = false →
  getcwd (os s) = (Ok (w_cwd (os s)), os s) →
  w_cwd (os s) ∈ w_dirs (os (body (w_cwd (os s)) s).2) →
  pushd path body s
  = ((body (w_cwd (os s)) s).1,
     St (locals (body (w_cwd (os s)) s).2)
        (set_cwd (w_cwd (os s)) (os (body (w_cwd (os s)) s).2))).
Proof.
  intros Hp E0 Hkeep.
  pose proof (getcwd_inv _ _ _ E0) as [_ [(_ & Hin & Habs)|[e [=]]]].
  assert (or_str path (w_cwd (os s)) = w_cwd (os s)) as Hor
    by (by destruct path as [[|??]|]).
  assert (chdir (or_str path (w_cwd (os s))) (os s) = (Ok tt, os s)) as E1.
  { rewrite Hor, (chdir_abs_existing _ _ Habs Hin). by rewrite set_cwd_same. }
  rewrite (pushd_enter path body s (os s) (w_cwd (os s)) E0 E1 E0).
  rewrite st_eta. destruct (body (w_cwd (os s)) s) as [o s2].
  cbn [fst snd] in *. by rewrite (chdir_abs_existing _ _ Habs Hkeep).
Qed.

(** X11: when the block removes the directory that was recorded, going
    back fails: the call raises an [OSError] whatever way the block ended
    (its result or its own error is lost), and the working directory stays
    where the block left it. *)
Theorem pushd_recorded_directory_removed {L R A} (path : pystr)
    (body : string → M L R A) (s : st L) (w1 : world) (d : string) :
  getcwd (os s) = (Ok (w_cwd (os s)), os s) →
  chdir (or_str path (w_cwd (os s))) (os s) = (Ok tt, w1) →
  getcwd w1 = (Ok d, w1) →
  w_cwd (os s) ∉ w_dirs (os (body d (St (locals s) w1)).2) →
  ∃ e, pushd path body s = (Raise e, (body d (St (locals s) w1)).2)
       ∧ is_OSError e = true.
Proof.
  intros E0 E1 E2 Hgone.
  pose proof (getcwd_inv _ _ _ E0) as [_ [(_ & Hin & Habs)|[e [=]]]].
  rewrite (pushd_enter path body s w1 d E0 E1 E2).
  destruct (body d (St (locals s) w1)) as [o s2]. cbn [snd] in *.
  assert (chdir (w_cwd (os s)) (os s2)
          = (Err (FileNotFoundError ["chdir"; w_cwd (os s)]), os s2)) as ->.
  { unfold chdir. rewrite (resolve_abs _ _ Habs).
    rewrite bool_decide_eq_false_2 by done. by rewrite andb_false_r. }
  rewrite st_eta. eauto.
Qed.

Lemma pushd_missing_target_witness :
  ∃ e, pushd (Some "/nowhere") demo_block (St tt demo_world)
       = (Raise e, St tt demo_world)
       ∧ is_OSError e = true.
Proof.
  apply (pushd_missing_target "/nowhere" demo_block (St tt demo_world)).
  - reflexivity.
  - reflexivity.
  - vm_compute. set_solver.
Defined.

Lemma demo_block_keeps_cwd_dir :
  w_cwd demo_world
  ∈ w_dirs (os (demo_block (w_cwd demo_world) (St tt demo_world)).2).
Proof. vm_compute. set_solver. Qed.

Lemma pushd_without_target_witness :
  pushd None demo_block (St tt demo_world)
  = (Raise (OSError ["boom"]), St tt demo_world).
Proof.
  rewrite (pushd_without_target None demo_block (St tt demo_world)).
  - reflexivity.
  - reflexivity.
  - reflexivity.
  - exact demo_block_keeps_cwd_dir.
Defined.

Lemma demo_rmdir_removes :
  w_cwd demo_world
  ∉ w_dirs (os (demo_rmdir_block "/opt/lib"
                  (St tt (set_cwd "/opt/lib" demo_world))).2).
Proof. vm_compute. set_solver. Qed.

Lemma pushd_recorded_directory_removed_witness :
  ∃ e, pushd (Some "/opt/lib") demo_rmdir_block (St tt demo_world)
       = (Raise e,
          (demo_rmdir_block "/opt/lib"
             (St tt (set_cwd "/opt/lib" demo_world))).2)
       ∧ is_OSError e = true.
Proof.
  apply (pushd_recorded_directory_removed (Some "/opt/lib") demo_rmdir_block
           (St tt demo_world) (set_cwd "/opt/lib" demo_world) "/opt/lib").
  - reflexivity.
  - reflexivity.
  - reflexivity.
  - exact demo_rmdir_removes.
Defined.

(** ** More on close *)

(** X12: [close] never raises.  Given no process it does nothing; given
    one, it closes each pipe that is open, then sends the kill signal, then
    waits, and it touches neither the working directory nor any file. *)
Theorem close_quietly (proc : option process) (w : world) :
  ∃ w', close proc w = (Ok tt, w')
        ∧ w_cwd w' = w_cwd w
        ∧ w_files w' = w_files w
        ∧ events_of (close proc) w
          = match proc with
            | None => []
            | Some p =>
                pipe_events (proc_stdin p) ++ pipe_events (proc_stdout p)
                ++ pipe_events (proc_stderr p) ++ [EvKill (pid p); EvWait (pid p)]
            end.
Proof.
  destruct proc as [p|].
  - eexists. split; [apply close_Some|].
    split; [apply foldl_emit_cwd|]. split; [apply foldl_emit_files|].
    unfold events_of. rewrite close_Some. cbn [snd].
    by rewrite foldl_emit_trace, drop_app_length.
  - exists w. repeat split; try done. by apply events_of_same.
Qed.

(** ** What a run leaves of the world *)

Section Steps.
Variable Rw : relation world.
Context `{!PreOrder Rw}.

Lemma M_steps_ret {L R A} (a : A) : M_steps Rw (mret a : M L R A).
Proof. intros s. reflexivity. Qed.

Lemma M_steps_return {L R A} (r : R) : M_steps Rw (return_ r : M L R A).
Proof. intros s. reflexivity. Qed.

Lemma M_steps_raise {L R A} e : M_steps Rw (raise e : M L R A).
Proof. intros s. reflexivity. Qed.

Lemma M_steps_get_locals {L R} : M_steps Rw (get_locals : M L R L).
Proof. intros s. reflexivity. Qed.

Lemma M_steps_set_locals {L R} (l : L) :
M_steps Rw (set_locals l : M L R unit).
Proof. intros s. reflexivity. Qed.

Lemma M_steps_call {L R A} (f : F A) :
F_steps Rw f → M_steps Rw (call f : M L R A).
Proof.
intros Hf s. specialize (Hf (os s)). unfold call.
destruct (f (os s)) as [[a|e] w']; exact Hf.
Qed.

Lemma M_steps_bind {L R A B} (m : M L R A) (k : A → M L R B) :
M_steps Rw m → (∀ a, M_steps Rw (k a)) → M_steps Rw (m ≫= k).
Proof.
intros Hm Hk s. specialize (Hm s). unfold mbind, M_bind, bind.
destruct (m s) as [[a|r|e] s1]; try exact Hm.
etrans; [exact Hm | apply Hk].
Qed.

Lemma M_steps_try_finally {L R A} (body : M L R A) fin :
M_steps Rw body → M_steps Rw fin → M_steps Rw (try_finally body fin).
Proof.
intros Hb Hf s. specialize (Hb s). unfold try_finally.
destruct (body s) as [o s1]. specialize (Hf s1).
destruct (fin s1) as [[?|?|?] s2]; (etrans; [exact Hb | exact Hf]).
Qed.

Lemma M_steps_try_except {L R A} (body : M L R A) catches handler :
M_steps Rw body → (∀ e, M_steps Rw (handler e)) →
M_steps Rw (try_except body catches handler).
Proof.
intros Hb Hh s. specialize (Hb s). unfold try_except.
destruct (body s) as [[a|r|e] s1]; try exact Hb.
destruct (catches e); [|exact Hb]. etrans; [exact Hb | apply Hh].
Qed.

Lemma F_steps_def {L R} (l : L) (body : M L R R) :
M_steps Rw body → F_steps Rw (def l body).
Proof.
intros Hb w. specialize (Hb (St l w)). unfold def.
destruct (body (St l w)) as [[?|?|?] s1]; exact Hb.
Qed.
End Steps.

#[local] Instance dirs_grow_preorder : PreOrder dirs_grow.
Proof.
  split.
  - intros w. unfold dirs_grow. reflexivity.
  - intros w1 w2 w3 H12 H23. unfold dirs_grow in *. by etrans.
Qed.

#[local] Instance cwd_kept_preorder : PreOrder cwd_kept.
Proof.
  split.
  - intros w. split; reflexivity.
  - intros w1 w2 w3 [C12 D12] [C23 D23].
    split; [congruence | by etrans].
Qed.

Lemma cwd_kept_dirs_grow w w' : cwd_kept w w' → dirs_grow w w'.
Proof. by intros [_ ?]. Qed.

Lemma cwd_kept_emit e w : cwd_kept w (emit e w).
Proof. by split. Qed.

(** Whatever the block does short of removing directories, a [with pushd]
    statement ends in the working directory it started in. *)
Lemma M_steps_pushd {L R A} path (body : string → M L R A) :
  (∀ d, M_steps dirs_grow (body d)) → M_steps cwd_kept (pushd path body).
Proof.
  intros Hb s. unfold pushd. run_monad.
  destruct (getcwd (os s)) as [r0 w0] eqn:E0.
  pose proof (getcwd_inv _ _ _ E0) as [-> H0].
  destruct H0 as [(-> & Hin & Habs) | [e ->]]; [|done].
  cbn [os locals].
  destruct (chdir (or_str path (w_cwd (os s))) (os s)) as [r1 w1] eqn:E1.
  pose proof (chdir_inv _ _ _ _ E1) as [[-> Hw1] | [[e ->] ->]].
  2: { cbn [os locals]. rewrite (chdir_abs_existing _ _ Habs Hin).
       by rewrite set_cwd_same. }
  assert (w_dirs w1 = w_dirs (os s)) as Hd1 by (by rewrite Hw1).
  cbn [os locals].
  destruct (getcwd w1) as [r2 w2] eqn:E2.
  pose proof (getcwd_inv _ _ _ E2) as [-> H2].
  destruct H2 as [(-> & _ & _) | [e ->]].
  2: { cbn [os locals]. rewrite chdir_abs_existing; [|done|by rewrite Hd1].
       split; [done|]. cbn [os snd w_dirs set_cwd]. by rewrite Hd1. }
  cbn [os locals]. specialize (Hb (w_cwd w1) (St (locals s) w1)).
  destruct (body (w_cwd w1) (St (locals s) w1)) as [o s2].
  unfold dirs_grow in Hb. cbn [os snd] in Hb. rewrite Hd1 in Hb.
  rewrite chdir_abs_existing; [|done|by apply Hb].
  by destruct o.
Qed.

Lemma F_steps_getcwd : F_steps cwd_kept getcwd.
Proof.
  intros w. unfold getcwd.
  destruct (bool_decide (w_cwd w ∈ w_dirs w) && is_abs (w_cwd w));
    reflexivity.
Qed.

Lemma F_steps_close proc : F_steps cwd_kept (close proc).
Proof.
  intros w. destruct proc as [p|]; [|reflexivity].
  rewrite close_Some. cbn [snd]. split.
  - apply foldl_emit_cwd.
  - generalize (close_events p). intros evs. revert w.
    induction evs as [|e evs IH]; intros w; [done|]. apply (IH (emit e w)).
Qed.

Lemma F_steps_read_rb p : F_steps cwd_kept (read_rb p).
Proof.
  intros w. unfold read_rb. destruct (_ !! _); [|reflexivity].
  apply cwd_kept_emit.
Qed.

Section Leaves.
Context `{System} `{Externals}.

Lemma F_steps_get_env base_vars lib_dir :
F_steps cwd_kept (get_env base_vars lib_dir).
Proof.
intros w. rewrite get_env_eq. reflexivity.
Qed.

(** X13: on every path, whatever the arguments and whatever the operating
  system answers, [execute2] ends in the working directory it was started
  in, and no directory is gone. *)
Theorem execute2_leaves_cwd cmd_loc args lib_dir cwd env to_files log w :
w_cwd (execute2 cmd_loc args lib_dir cwd env to_files log w).2 = w_cwd w
∧ w_dirs w ⊆ w_dirs (execute2 cmd_loc args lib_dir cwd env to_files log w).2.
Proof.
revert w. change (F_steps cwd_kept
                    (execute2 cmd_loc args lib_dir cwd env to_files log)).
unfold execute2.
destruct cmd_loc as [[|c cmd]|];
  try (apply (F_steps_def cwd_kept), (M_steps_raise cwd_kept)).
apply (F_steps_def cwd_kept).
apply (M_steps_bind cwd_kept);
  [apply (M_steps_call cwd_kept), F_steps_get_env|].
intros env'. apply (M_steps_bind cwd_kept).
{ apply (M_steps_call cwd_kept). intros w. unfold get_temp_dir. cbn [snd].
  split; [done|]. cbn [w_dirs emit add_dir]. apply union_subseteq_r. }
intros tmp. apply (M_steps_bind cwd_kept).
{ destruct log; [|apply (M_steps_ret cwd_kept)].
  apply (M_steps_call cwd_kept). intros w. apply cwd_kept_emit. }
intros _. apply (M_steps_bind cwd_kept).
{ apply (M_steps_try_finally cwd_kept).
  - apply (M_steps_bind cwd_kept).
    { apply (M_steps_call cwd_kept). by intros w. }
    intros stdout. apply (M_steps_bind cwd_kept).
    { apply (M_steps_call cwd_kept). by intros w. }
    intros stderr. apply M_steps_pushd. intros _.
    apply (M_steps_bind dirs_grow).
    { apply (M_steps_call dirs_grow). intros w. unfold dirs_grow. by cbn. }
    intros proc.
    apply (M_steps_bind dirs_grow); [apply (M_steps_get_locals dirs_grow)|].
    intros [? rc].
    apply (M_steps_bind dirs_grow); [apply (M_steps_set_locals dirs_grow)|].
    intros _. apply (M_steps_bind dirs_grow);
      [|intros _; apply (M_steps_set_locals dirs_grow)].
    apply (M_steps_call dirs_grow). intros w. unfold dirs_grow. by cbn.
  - apply (M_steps_bind cwd_kept); [apply (M_steps_get_locals cwd_kept)|].
    intros [proc ?]. apply (M_steps_call cwd_kept), F_steps_close. }
intros _.
apply (M_steps_bind cwd_kept); [apply (M_steps_get_locals cwd_kept)|].
intros [? rc]. destruct to_files; cbn [negb];
  [apply (M_steps_return cwd_kept)|].
apply (M_steps_bind cwd_kept);
  [apply (M_steps_call cwd_kept), F_steps_read_rb|].
intros so.
apply (M_steps_bind cwd_kept);
  [apply (M_steps_call cwd_kept), F_steps_read_rb|].
intros se. apply (M_steps_return cwd_kept).
Qed.

(** X14: on every path, [load_shared_library] ends in the working directory
  it was started in. *)
Theorem load_shared_library_leaves_cwd dll_path lib_dir w :
w_cwd (load_shared_library dll_path lib_dir w).2 = w_cwd w
∧ w_dirs w ⊆ w_dirs (load_shared_library dll_path lib_dir w).2.
Proof.
revert w. change (F_steps cwd_kept (load_shared_library dll_path lib_dir)).
unfold load_shared_library. apply (F_steps_def cwd_kept).
apply (M_steps_bind cwd_kept).
{ destruct (negb (truthy dll_path)); [apply (M_steps_ret cwd_kept)|].
  apply (M_steps_bind cwd_kept); [|intros ?; apply (M_steps_ret cwd_kept)].
  apply (M_steps_call cwd_kept). by intros w. }
intros [|]; [apply (M_steps_raise cwd_kept)|].
apply (M_steps_bind cwd_kept).
{ destruct (truthy lib_dir); [|apply (M_steps_ret cwd_kept)].
  apply (M_steps_bind cwd_kept); [|intros ?; apply (M_steps_ret cwd_kept)].
  apply (M_steps_call cwd_kept). by intros w. }
intros [|]; [apply (M_steps_raise cwd_kept)|].
apply (M_steps_bind cwd_kept).
{ apply (M_steps_try_except cwd_kept).
  - apply M_steps_pushd. intros _. apply (M_steps_call dirs_grow).
    intros w. unfold dirs_grow. by cbn.
  - intros e. apply (M_steps_bind cwd_kept).
    + apply (M_steps_call cwd_kept). by intros w.
    + intros environ. apply (M_steps_raise cwd_kept). }
intros lib. destruct (truthy (lib_name lib));
  [apply (M_steps_return cwd_kept) | apply (M_steps_raise cwd_kept)].
Qed.
End Leaves.

(** ** load_shared_library past its guards *)

Lemma set_cwd_emit_set_cwd e d w :
  set_cwd (w_cwd w) (emit e (set_cwd d w)) = emit e w.
Proof. by destruct w. Qed.

Lemma add_args_spec e msgs :
  is_OSError e = true →
  is_OSError (add_args e msgs) = true
  ∧ exn_args (add_args e msgs) = exn_args e ++ msgs.
Proof. by destruct e. Qed.

Section Load.
Context `{Externals}.

(** With a library file that exists, a sound working directory and a
  library directory that exists (if one is given), [load_shared_library]
  calls [ctypes.CDLL] from inside the library directory and ends as the
  answer says. *)
Lemma load_shared_library_at_cdll (dll : string) lib_dir w :
str_truthy dll = true → path_exists dll w = true →
w_cwd w ∈ w_dirs w → is_abs (w_cwd w) = true →
truthy lib_dir = false ∨ resolve (w_cwd w) (py_str lib_dir) ∈ w_dirs w →
load_shared_library (Some dll) lib_dir w
= match cdll_model dll
          (set_cwd (resolve (w_cwd w) (or_str lib_dir (w_cwd w))) w) with
  | Ok lib =>
      if truthy (lib_name lib) then (Ok lib, emit (EvCDLL dll) w)
      else (Err (ImportError (failed_load_message dll lib_dir)),
            emit (EvCDLL dll) w)
  | Err e =>
      (Err (if is_OSError e
            then add_args e (load_diagnostics dll lib_dir e w)
            else e),
       emit (EvCDLL dll) w)
  end.
Proof.
intros Hdll Hex Hin Habs Hlib.
set (target := resolve (w_cwd w) (or_str lib_dir (w_cwd w))).
assert (getcwd w = (Ok (w_cwd w), w)) as E0 by (by apply getcwd_ok).
assert (str_truthy (or_str lib_dir (w_cwd w)) = true ∧ target ∈ w_dirs w)
  as [Hl1 Hl2].
{ subst target. destruct lib_dir as [[|c' l']|].
  - cbn [or_str]. rewrite (resolve_abs _ _ Habs).
    split; [by destruct (w_cwd w) | done].
  - split; [done|]. by destruct Hlib as [?|?].
  - cbn [or_str]. rewrite (resolve_abs _ _ Habs).
    split; [by destruct (w_cwd w) | done]. }
assert (chdir (or_str lib_dir (w_cwd w)) w = (Ok tt, set_cwd target w)) as E1
  by (by apply chdir_ok).
assert (getcwd (set_cwd target w) = (Ok target, set_cwd target w)) as E2.
{ apply (getcwd_ok (set_cwd target w)); [done|].
  by apply is_abs_resolve. }
assert ((if truthy lib_dir then path_exists (py_str lib_dir) w else false)
        = truthy lib_dir) as Hlibex.
{ destruct lib_dir as [[|c' l']|]; try done.
  destruct Hlib as [?|Hd]; [done|]. unfold path_exists.
  cbn [py_str str_truthy andb] in *. by rewrite bool_decide_eq_true_2. }
unfold load_shared_library, def.
erewrite (bind_normal _ _ _ false (St tt w)).
2: { cbn [truthy]. rewrite Hdll. cbn [negb].
     erewrite bind_call_ok by (unfold os_path_exists; reflexivity).
     cbv beta. cbn [py_str os locals]. by rewrite Hex. }
erewrite (bind_normal _ _ _ false (St tt w)).
2: { destruct (truthy lib_dir) eqn:Ht; [|reflexivity].
     erewrite bind_call_ok by (unfold os_path_exists; reflexivity).
     cbv beta. cbn [os locals]. by rewrite Hlibex. }
unfold fsdecode. cbn [py_str].
assert (pushd lib_dir (λ _ : string, call (CDLL dll)) (St tt w)
        = (match cdll_model dll (set_cwd target w) with
           | Ok lib => Normal lib
           | Err e => Raise e
           end, St tt (emit (EvCDLL dll) w))
        :> outcome library library * st unit) as Hpushd.
{ erewrite pushd_enter; [|exact E0|exact E1|exact E2].
  unfold call, CDLL. cbn [os locals].
  destruct (cdll_model dll (set_cwd target w)) as [lib|e];
    cbn [os locals w_dirs emit set_cwd];
    (rewrite chdir_abs_existing; [|exact Habs|exact Hin]);
    by rewrite set_cwd_emit_set_cwd. }
unfold mbind, M_bind, bind, try_except. rewrite Hpushd.
destruct (cdll_model dll (set_cwd target w)) as [lib|e].
- destruct (truthy (lib_name lib)); reflexivity.
- destruct (is_OSError e); reflexivity.
Qed.

(** X15: when the operating system loads the library, from inside the
  library directory, and the handle has a name, [load_shared_library]
  returns that handle after one [ctypes.CDLL] call, the world otherwise
  as before. *)
Theorem load_shared_library_loads (dll : string) lib_dir w lib :
str_truthy dll = true → path_exists dll w = true →
w_cwd w ∈ w_dirs w → is_abs (w_cwd w) = true →
truthy lib_dir = false ∨ resolve (w_cwd w) (py_str lib_dir) ∈ w_dirs w →
cdll_model dll (set_cwd (resolve (w_cwd w) (or_str lib_dir (w_cwd w))) w)
= Ok lib →
truthy (lib_name lib) = true →
load_shared_library (Some dll) lib_dir w = (Ok lib, emit (EvCDLL dll) w)
∧ events_of (load_shared_library (Some dll) lib_dir) w = [EvCDLL dll].
Proof.
intros Hdll Hex Hin Habs Hlib Ec Hname.
pose proof (load_shared_library_at_cdll dll lib_dir w Hdll Hex Hin Habs Hlib)
  as E.
rewrite Ec, Hname in E. split; [exact E|].
unfold events_of. rewrite E. cbn [snd w_trace emit].
by rewrite drop_app_length.
Qed.

(** X16: when [ctypes.CDLL] raises an [OSError], [load_shared_library]
  raises an error of that family whose arguments are the original ones
  followed by the four diagnostics (the path, the library directory, the
  environment and the traceback), back in the starting directory. *)
Theorem load_shared_library_enriches (dll : string) lib_dir w e :
str_truthy dll = true → path_exists dll w = true →
w_cwd w ∈ w_dirs w → is_abs (w_cwd w) = true →
truthy lib_dir = false ∨ resolve (w_cwd w) (py_str lib_dir) ∈ w_dirs w →
cdll_model dll (set_cwd (resolve (w_cwd w) (or_str lib_dir (w_cwd w))) w)
= Err e →
is_OSError e = true →
∃ e', load_shared_library (Some dll) lib_dir w
      = (Err e', emit (EvCDLL dll) w)
      ∧ is_OSError e' = true
      ∧ exn_args e' = exn_args e ++ load_diagnostics dll lib_dir e w.
Proof.
intros Hdll Hex Hin Habs Hlib Ec Hos.
pose proof (load_shared_library_at_cdll dll lib_dir w Hdll Hex Hin Habs Hlib)
  as E.
rewrite Ec, Hos in E. eexists. split; [exact E|].
by apply add_args_spec.
Qed.

(** X17: a handle without a name is refused: the call to [ctypes.CDLL] has
  succeeded, and [load_shared_library] raises [ImportError]. *)
Theorem load_shared_library_nameless (dll : string) lib_dir w lib :
str_truthy dll = true → path_exists dll w = true →
w_cwd w ∈ w_dirs w → is_abs (w_cwd w) = true →
truthy lib_dir = false ∨ resolve (w_cwd w) (py_str lib_dir) ∈ w_dirs w →
cdll_model dll (set_cwd (resolve (w_cwd w) (or_str lib_dir (w_cwd w))) w)
= Ok lib →
truthy (lib_name lib) = false →
∃ msg, load_shared_library (Some dll) lib_dir w
       = (Err (ImportError msg), emit (EvCDLL dll) w).
Proof.
intros Hdll Hex Hin Habs Hlib Ec Hname.
pose proof (load_shared_library_at_cdll dll lib_dir w Hdll Hex Hin Habs Hlib)
  as E.
rewrite Ec, Hname in E. eauto.
Qed.
End Load.

Section LoadMore.
Context `{Externals}.

(** X18: a library directory that exists as a file, not as a directory,
  passes the guard ([os.path.exists] is true) and fails at [os.chdir]:
  the [OSError] is reported with the diagnostics of a failed
  [ctypes.CDLL] call although no such call was made. *)
Theorem load_shared_library_dir_is_file (dll lib : string) w :
str_truthy dll = true → path_exists dll w = true →
w_cwd w ∈ w_dirs w → is_abs (w_cwd w) = true →
str_truthy lib = true →
resolve (w_cwd w) lib ∉ w_dirs w →
is_Some (w_files w !! resolve (w_cwd w) lib) →
∃ e e', load_shared_library (Some dll) (Some lib) w = (Err e', w)
        ∧ is_OSError e' = true
        ∧ exn_args e' = exn_args e ++ load_diagnostics dll (Some lib) e w
        ∧ events_of (load_shared_library (Some dll) (Some lib)) w = [].
Proof.
intros Hdll Hex Hin Habs Hlib Hnodir Hfile.
assert (getcwd w = (Ok (w_cwd w), w)) as E0 by (by apply getcwd_ok).
assert (path_exists lib w = true) as Hlex.
{ unfold path_exists. rewrite Hlib. cbn [andb].
  rewrite (bool_decide_eq_true_2 (is_Some _)) by done. apply orb_true_r. }
exists (FileNotFoundError ["chdir"; lib]).
assert (load_shared_library (Some dll) (Some lib) w
        = (Err (add_args (FileNotFoundError ["chdir"; lib])
                  (load_diagnostics dll (Some lib)
                     (FileNotFoundError ["chdir"; lib]) w)), w)) as E.
{ unfold load_shared_library, def.
  erewrite (bind_normal _ _ _ false (St tt w)).
  2: { cbn [truthy]. rewrite Hdll. cbn [negb].
       erewrite bind_call_ok by (unfold os_path_exists; reflexivity).
       cbv beta. cbn [py_str os locals]. by rewrite Hex. }
  erewrite (bind_normal _ _ _ false (St tt w)).
  2: { cbn [truthy]. rewrite Hlib.
       erewrite bind_call_ok by (unfold os_path_exists; reflexivity).
       cbv beta. cbn [py_str os locals]. by rewrite Hlex. }
  unfold mbind, M_bind, bind, try_except.
  rewrite (pushd_refuses lib _ (St tt w) E0 Hlib Hnodir).
  reflexivity. }
eexists. split; [exact E|]. split; [done|]. split; [done|].
apply events_of_same. by rewrite E.
Qed.
End LoadMore.

Lemma demo_library_exists :
  path_exists "/opt/lib/libdemo.so" demo_world = true.
Proof. vm_compute. reflexivity. Qed.

Lemma load_shared_library_loads_witness :
  @load_shared_library demo_externals (Some "/opt/lib/libdemo.so")
    (Some "/opt/lib") demo_world
  = (Ok {| lib_name := Some "/opt/lib/libdemo.so" |},
     emit (EvCDLL "/opt/lib/libdemo.so") demo_world)
  ∧ events_of
      (@load_shared_library demo_externals (Some "/opt/lib/libdemo.so")
         (Some "/opt/lib")) demo_world
    = [EvCDLL "/opt/lib/libdemo.so"].
Proof.
  apply (@load_shared_library_loads demo_externals "/opt/lib/libdemo.so"
           (Some "/opt/lib") demo_world).
  - reflexivity.
  - exact demo_library_exists.
  - exact demo_world_cwd_exists.
  - reflexivity.
  - right. exact demo_world_lib_exists.
  - reflexivity.
  - reflexivity.
Defined.

Lemma demo_home_exists : path_exists "/home/user" demo_world = true.
Proof. vm_compute. reflexivity. Qed.

Lemma load_shared_library_enriches_witness :
  ∃ e', @load_shared_library demo_externals (Some "/home/user") None demo_world
        = (Err e', emit (EvCDLL "/home/user") demo_world)
        ∧ is_OSError e' = true
        ∧ exn_args e'
          = exn_args (OSError ["cannot open shared object file"])
            ++ @load_diagnostics demo_externals "/home/user" None
                 (OSError ["cannot open shared object file"]) demo_world.
Proof.
  apply (@load_shared_library_enriches demo_externals "/home/user" None
           demo_world (OSError ["cannot open shared object file"])).
  - reflexivity.
  - exact demo_home_exists.
  - exact demo_world_cwd_exists.
  - reflexivity.
  - left. reflexivity.
  - reflexivity.
  - reflexivity.
Defined.

Lemma load_shared_library_nameless_witness :
  ∃ msg, @load_shared_library nameless_externals (Some "/opt/lib/libdemo.so")
           None demo_world
         = (Err (ImportError msg), emit (EvCDLL "/opt/lib/libdemo.so") demo_world).
Proof.
  apply (@load_shared_library_nameless nameless_externals
           "/opt/lib/libdemo.so" None demo_world {| lib_name := Some "" |}).
  - reflexivity.
  - exact demo_library_exists.
  - exact demo_world_cwd_exists.
  - reflexivity.
  - left. reflexivity.
  - reflexivity.
  - reflexivity.
Defined.

Lemma demo_library_not_a_directory :
  resolve (w_cwd demo_world) "/opt/lib/libdemo.so" ∉ w_dirs demo_world.
Proof. vm_compute. set_solver. Qed.

Lemma demo_library_is_a_file :
  is_Some (w_files demo_world !! resolve (w_cwd demo_world) "/opt/lib/libdemo.so").
Proof. vm_compute. eauto. Qed.

Lemma load_shared_library_dir_is_file_witness :
  ∃ e e', @load_shared_library demo_externals (Some "/opt/lib/libdemo.so")
            (Some "/opt/lib/libdemo.so") demo_world = (Err e', demo_world)
          ∧ is_OSError e' = true
          ∧ exn_args e'
            = exn_args e
              ++ @load_diagnostics demo_externals "/opt/lib/libdemo.so"
                   (Some "/opt/lib/libdemo.so") e demo_world
          ∧ events_of
              (@load_shared_library demo_externals (Some "/opt/lib/libdemo.so")
                 (Some "/opt/lib/libdemo.so")) demo_world = [].
Proof.
  apply (@load_shared_library_dir_is_file demo_externals
           "/opt/lib/libdemo.so" "/opt/lib/libdemo.so" demo_world).
  - reflexivity.
  - exact demo_library_exists.
  - exact demo_world_cwd_exists.
  - reflexivity.
  - reflexivity.
  - exact demo_library_not_a_directory.
  - exact demo_library_is_a_file.
Defined.

(** ** More on execute2 *)

Section ExecuteMore.
Context `{System} `{Externals}.

Lemma execute2_calls_spawns_as cmd args lib_dir cwd env to_files log w :
calls_only (spawns_as cmd args lib_dir cwd env w) w
  (execute2 (Some cmd) args lib_dir cwd env to_files log w).2.
Proof.
set (P := spawns_as cmd args lib_dir cwd env w).
unfold execute2. destruct cmd as [|c cmd]; [apply calls_only_refl|].
unfold def. erewrite bind_call_ok by apply get_env_eq.
cbn [os locals].
assert (∀ so se,
          P (EvPopen {| pa_cmd := String c cmd :: default [] args;
                        pa_cwd := or_str cwd curr_dir;
                        pa_env := dict_or_None (get_env_map env lib_dir w);
                        pa_stdout := so; pa_stderr := se;
                        pa_shell := if on_windows then true else false |}))
  as HP.
{ intros so se. subst P. cbn [spawns_as pa_cmd pa_cwd pa_env pa_shell].
  split; [done|]. split; [done|]. split.
  - unfold built_env. by rewrite get_env_eq.
  - by destruct on_windows. }
match goal with
| |- context [let (_, _) := ?m ?s in _] => assert (M_calls P m) as Hm
end.
{ apply M_calls_bind.
  { apply M_calls_call. intros w0. unfold get_temp_dir. cbn [snd].
    apply calls_only_emit; [done | by apply calls_only_same]. }
  intros tmp. apply M_calls_bind.
  { destruct log; [|apply M_calls_ret]. apply M_calls_call. intros w0.
    apply calls_only_emit; [done | apply calls_only_refl]. }
  intros _. apply M_calls_bind.
  { apply M_calls_try_finally.
    - apply M_calls_bind.
      { apply M_calls_call. intros w0. unfold open_w. cbn [snd].
        apply calls_only_emit; [done | by apply calls_only_same]. }
      intros stdout. apply M_calls_bind.
      { apply M_calls_call. intros w0. unfold open_w. cbn [snd].
        apply calls_only_emit; [done | by apply calls_only_same]. }
      intros stderr. apply M_calls_pushd. intros _.
      apply M_calls_bind.
      { apply M_calls_call. intros w0. unfold Popen. cbn [snd].
        apply calls_only_emit; [apply HP | apply calls_only_refl]. }
      intros proc. apply M_calls_bind; [apply M_calls_get_locals|].
      intros [? rc]. apply M_calls_bind; [apply M_calls_set_locals|].
      intros _. apply M_calls_bind; [|intros _; apply M_calls_set_locals].
      apply M_calls_call. intros w0. unfold communicate. cbn [snd].
      apply calls_only_emit; [done | by apply calls_only_same].
    - apply M_calls_bind; [apply M_calls_get_locals|].
      intros [proc ?]. apply M_calls_call. by apply F_calls_close. }
  intros _. apply M_calls_bind; [apply M_calls_get_locals|].
  intros [? rc]. destruct to_files; cbn [negb]; [apply M_calls_return|].
  apply M_calls_bind; [by apply M_calls_call, F_calls_read_rb|].
  intros so. apply M_calls_bind; [by apply M_calls_call, F_calls_read_rb|].
  intros se. apply M_calls_return. }
match goal with
| |- context [let (_, _) := ?m ?s in _] =>
    specialize (Hm s); destruct (m s) as [[?|?|?] s1]
end; exact Hm.
Qed.

Lemma execute2_spawn_calls cmd args lib_dir cwd env to_files log w a :
EvPopen a ∈ events_of (execute2 (Some cmd) args lib_dir cwd env to_files log) w →
spawns_as cmd args lib_dir cwd env w (EvPopen a).
Proof.
intros Ha.
destruct (execute2_calls_spawns_as cmd args lib_dir cwd env to_files log w)
  as (evs & E & Hevs).
unfold events_of in Ha. rewrite E, drop_app_length in Ha.
rewrite Forall_forall in Hevs. by apply Hevs.
Qed.

(** X19: on every path, a spawn that [execute2] makes is made with the
  command line [[cmd_loc] + args], with the working directory given by
  the caller or else the root directory of the library, with the
  environment built from the base map and the library directory, and
  through a shell on Windows only. *)
Theorem execute2_spawn_arguments cmd args lib_dir cwd env to_files log w a :
EvPopen a ∈ events_of (execute2 (Some cmd) args lib_dir cwd env to_files log) w →
pa_cmd a = cmd :: default [] args
∧ pa_cwd a = or_str cwd curr_dir
∧ pa_env a = built_env env lib_dir w
∧ pa_shell a = on_windows.
Proof. apply execute2_spawn_calls. Qed.

(** X20: on POSIX with a library directory and no base environment, the
  child of any spawn gets the two library-search-path variables and
  nothing else: no other variable of the parent is passed on. *)
Theorem execute2_child_environ_with_library cmd args (lib_dir : string) cwd
  to_files log w a :
on_posix = true → str_truthy lib_dir = true →
EvPopen a
∈ events_of (execute2 (Some cmd) args (Some lib_dir) cwd None to_files log) w →
child_environ a w !! LD_LIBRARY_PATH
= Some (update_path_var (w_environ w !! LD_LIBRARY_PATH) (Some lib_dir))
∧ child_environ a w !! DYLD_LIBRARY_PATH
  = Some (update_path_var (w_environ w !! DYLD_LIBRARY_PATH) (Some lib_dir))
∧ ∀ K, K ≠ LD_LIBRARY_PATH → K ≠ DYLD_LIBRARY_PATH →
       child_environ a w !! K = None.
Proof.
intros Hposix Hdir Ha.
apply execute2_spawn_calls in Ha as (_ & _ & Henv & _).
unfold child_environ. rewrite Henv. unfold built_env.
rewrite get_env_eq, get_env_map_lib
  by (cbn [truthy]; by rewrite Hdir, Hposix).
cbn [py_str default]. unfold dict_or_None.
rewrite bool_decide_eq_false_2 by apply insert_non_empty.
split; [|split].
- rewrite lookup_insert_ne by done. by rewrite lookup_insert_eq.
- by rewrite lookup_insert_eq.
- intros K Hl Hd. by rewrite !lookup_insert_ne.
Qed.

(** X21: when the library directory does not exist, [execute2] raises an
  [OSError] from [pushd]: nothing is spawned and nothing is cleaned up,
  while the temporary directory and the two output files, empty, have
  already been made. *)
Theorem execute2_missing_library_directory cmd args (lib : string) cwd env
  to_files log w :
str_truthy cmd = true →
w_cwd w ∈ w_dirs w → is_abs (w_cwd w) = true →
str_truthy lib = true →
resolve (w_cwd w) lib ∉ w_dirs w →
resolve (w_cwd w) lib ≠ temp_dir_name "cmd-" w →
let tmp := temp_dir_name "cmd-" w in
let f1 := resolve (w_cwd w) (path_join tmp "stdout") in
let f2 := resolve (w_cwd w) (path_join tmp "stderr") in
∃ e w',
  execute2 (Some cmd) args (Some lib) cwd env to_files log w = (Err e, w')
  ∧ is_OSError e = true
  ∧ events_of (execute2 (Some cmd) args (Some lib) cwd env to_files log) w
    = EvTempDir tmp :: (if log then [EvLog] else []) ++ [EvOpen f1; EvOpen f2]
  ∧ tmp ∈ w_dirs w'
  ∧ w_files w' !! f1 = Some []
  ∧ w_files w' !! f2 = Some [].
Proof.
intros Hcmd Hin Habs Hlib Hnodir Hntmp tmp f1 f2.
destruct cmd as [|c cmd]; [done|].
set (w1 := log_world log (emit (EvTempDir tmp) (add_dir tmp w))).
set (w3 := open_world f2 (open_world f1 w1)).
assert (w_cwd w1 = w_cwd w) as Hc1 by (by destruct log).
assert (w_cwd w3 = w_cwd w) as Hc3 by (by destruct log).
assert (w_dirs w3 = {[tmp]} ∪ w_dirs w) as Hd3 by (by destruct log).
assert (w_files w3 = <[f2 := []]> (<[f1 := []]> (w_files w))) as Hf3
  by (by destruct log).
assert (w_trace w3
        = w_trace w ++ EvTempDir tmp :: (if log then [EvLog] else [])
                       ++ [EvOpen f1; EvOpen f2]) as Ht3.
{ subst w3 w1. unfold open_world, log_world.
  destruct log; cbn [w_trace emit set_file add_dir];
    rewrite <- ?app_assoc; reflexivity. }
assert (getcwd w3 = (Ok (w_cwd w3), w3)) as E0.
{ apply getcwd_ok; rewrite Hc3, ?Hd3; [by apply elem_of_union_r | done]. }
assert (resolve (w_cwd w3) lib ∉ w_dirs w3) as Hnodir3.
{ rewrite Hc3, Hd3. intros [Ht|Hd]%elem_of_union; [|done].
  by apply elem_of_singleton in Ht. }
assert (execute2 (Some (String c cmd)) args (Some lib) cwd env to_files log w
        = (Err (FileNotFoundError ["chdir"; lib]), w3)) as E.
{ unfold execute2, def.
  erewrite bind_call_ok by apply get_env_eq.
  erewrite bind_call_ok by reflexivity.
  erewrite (bind_normal _ _ _ tt (St (None, 100) w1)).
  2: { subst w1. destruct log; reflexivity. }
  cbn [os locals]. fold tmp.
  erewrite bind_raise.
  2: { eapply try_finally_normal.
       - erewrite bind_call_ok
           by (unfold open_w; cbn [os]; rewrite Hc1; reflexivity).
         erewrite bind_call_ok
           by (unfold open_w; cbn [os w_cwd emit set_file]; rewrite Hc1;
               reflexivity).
         cbn [locals]. fold f1 f2.
         apply (pushd_refuses lib _ (St (None, 100) w3) E0 Hlib Hnodir3).
       - erewrite bind_normal by reflexivity. reflexivity. }
  reflexivity. }
exists (FileNotFoundError ["chdir"; lib]), w3.
split; [exact E|]. split; [done|]. split.
{ unfold events_of. rewrite E. cbn [snd].
  by rewrite Ht3, drop_app_length. }
split; [rewrite Hd3; apply elem_of_union_l; by apply elem_of_singleton|].
rewrite Hf3. split.
- rewrite lookup_insert_ne by (by apply not_eq_sym, output_files_differ).
  apply lookup_insert_eq.
- apply lookup_insert_eq.
Qed.
End ExecuteMore.

Lemma demo_spawn_recorded :
  EvPopen demo_popen_args
  ∈ events_of
      (@execute2 posix_system demo_externals (Some "/bin/tool") None None None
         None false false) demo_world.
Proof. apply list_elem_of_In. vm_compute. do 3 right. left. reflexivity. Qed.

Lemma demo_spawn_lib_recorded :
  EvPopen demo_popen_args_lib
  ∈ events_of
      (@execute2 posix_system demo_externals (Some "/bin/tool") None
         (Some "/opt/lib") None None false false) demo_world.
Proof. apply list_elem_of_In. vm_compute. do 3 right. left. reflexivity. Qed.

Lemma execute2_spawn_arguments_witness :
  pa_cmd demo_popen_args = "/bin/tool" :: default [] None
  ∧ pa_cwd demo_popen_args = or_str None (@curr_dir posix_system)
  ∧ pa_env demo_popen_args = @built_env posix_system None None demo_world
  ∧ pa_shell demo_popen_args = @on_windows posix_system.
Proof.
  apply (@execute2_spawn_arguments posix_system demo_externals "/bin/tool"
           None None None None false false demo_world demo_popen_args).
  exact demo_spawn_recorded.
Defined.

Lemma execute2_child_environ_with_library_witness :
  child_environ demo_popen_args_lib demo_world !! LD_LIBRARY_PATH
  = Some (@update_path_var posix_system
            (w_environ demo_world !! LD_LIBRARY_PATH) (Some "/opt/lib"))
  ∧ child_environ demo_popen_args_lib demo_world !! DYLD_LIBRARY_PATH
    = Some (@update_path_var posix_system
              (w_environ demo_world !! DYLD_LIBRARY_PATH) (Some "/opt/lib"))
  ∧ ∀ K, K ≠ LD_LIBRARY_PATH → K ≠ DYLD_LIBRARY_PATH →
         child_environ demo_popen_args_lib demo_world !! K = None.
Proof.
  apply (@execute2_child_environ_with_library posix_system demo_externals
           "/bin/tool" None "/opt/lib" None false false demo_world
           demo_popen_args_lib).
  - reflexivity.
  - reflexivity.
  - exact demo_spawn_lib_recorded.
Defined.

Lemma demo_nowhere_missing :
  resolve (w_cwd demo_world) "/nowhere" ∉ w_dirs demo_world.
Proof. vm_compute. set_solver. Qed.

Lemma execute2_missing_library_directory_witness :
  ∃ e w',
    @execute2 posix_system demo_externals (Some "/bin/tool") None
      (Some "/nowhere") None None false false demo_world = (Err e, w')
    ∧ is_OSError e = true
    ∧ events_of
        (@execute2 posix_system demo_externals (Some "/bin/tool") None
           (Some "/nowhere") None None false false) demo_world
      = [EvTempDir "/tmp/cmd-0"; EvOpen "/tmp/cmd-0/stdout";
         EvOpen "/tmp/cmd-0/stderr"]
    ∧ "/tmp/cmd-0" ∈ w_dirs w'
    ∧ w_files w' !! "/tmp/cmd-0/stdout" = Some []
    ∧ w_files w' !! "/tmp/cmd-0/stderr" = Some [].
Proof.
  apply (@execute2_missing_library_directory posix_system demo_externals
           "/bin/tool" None "/nowhere" None None false false demo_world).
  - reflexivity.
  - exact demo_world_cwd_exists.
  - reflexivity.
  - reflexivity.
  - exact demo_nowhere_missing.
  - discriminate.
Defined.
